(** * pykis.utils.repr: the structured value pretty-printer

    A shallow embedding of [src/pykis/utils/repr.py] and the properties
    of its renderers ([_repr], [dict_repr], [_iterable_repr],
    [object_repr]).

    Conventions of the embedding.
    - A Python [str] is a Rocq [string]; its characters are the code
      points 0..255, for which the host tables used below (printable
      characters, line boundaries) are written out completely.
    - Python objects live in a [heap]: a container holds the addresses
      of its elements, so that shared and self-referential structures
      are ordinary inputs.
    - A leaf, and a mapping key, is given by the text of its host
      [repr]: the inputs are the values in which that text is computed
      without a call back into this module.  Two kinds of Python value
      are therefore not inputs here: a bound method of a [kis_repr]
      record (its host [repr] calls the record's [__repr__] at
      [_depth = 0]; [dir(obj)] lists such methods when [fields] is not
      given), and a [kis_repr] record used as a mapping key
      ([repr(k)] enters [object_repr] at [_depth = 0]).  Nothing is
      stated about them.
    - The host's recursion limit is the [fuel] of [_repr]: the number
      of nested [_repr] calls the host admits.  A call returns, raises
      a Python exception of the code, or exceeds that limit
      ([OutOfFuel], the host's [RecursionError], which no handler of
      the module catches). *)

From Stdlib Require Import ZArith List String Ascii Bool Lia.
Import ListNotations.

Local Open Scope string_scope.
Local Open Scope Z_scope.

(** ** Host primitives on strings *)

Module PyStr.

Definition len (s : string) : Z := Z.of_nat (String.length s).

Definition chr (n : nat) : ascii := ascii_of_nat n.
Definition ord (c : ascii) : nat := nat_of_ascii c.

Definition LF : ascii := chr 10.
Definition CR : ascii := chr 13.
Definition TAB : ascii := chr 9.
Definition BACKSLASH : ascii := chr 92.
Definition SQUOTE : ascii := chr 39.
Definition DQUOTE : ascii := chr 34.

(** [c in s] for a one-character needle. *)
Fixpoint contains (c : ascii) (s : string) : bool :=
  match s with
  | EmptyString => false
  | String x rest => if Ascii.eqb x c then true else contains c rest
  end.

(** ["\n" in v] *)
Definition has_newline (v : string) : bool := contains LF v.

(** [str.splitlines()]: a line ends at LF, VT, FF, CR, FS, GS, RS or
    NEL, a CR LF pair counts once, and a final line break does not open
    an empty last line. *)
Definition is_linebreak (c : ascii) : bool :=
  let n := ord c in
  (Nat.eqb n 10 || Nat.eqb n 11 || Nat.eqb n 12 || Nat.eqb n 13
   || Nat.eqb n 28 || Nat.eqb n 29 || Nat.eqb n 30 || Nat.eqb n 133)%bool.

Fixpoint splitlines_from (line : string) (open : bool) (s : string)
  : list string :=
  match s with
  | EmptyString => if open then [line] else []
  | String c rest =>
      if is_linebreak c then
        line ::
        (if Ascii.eqb c CR then
           match rest with
           | String c' rest' =>
               if Ascii.eqb c' LF then splitlines_from EmptyString false rest'
               else splitlines_from EmptyString false rest
           | EmptyString => splitlines_from EmptyString false rest
           end
         else splitlines_from EmptyString false rest)
      else splitlines_from (line ++ String c EmptyString) true rest
  end.

Definition splitlines (s : string) : list string :=
  splitlines_from EmptyString false s.

(** [repr] of a [str]: the quote is the apostrophe unless the text has
    an apostrophe and no double quote; the quote and the backslash are
    escaped, TAB, LF and CR get their letter, other unprintable
    characters a two-digit [\x] escape. *)
Definition hexdigit (n : nat) : ascii :=
  match n with
  | 0 => "0" | 1 => "1" | 2 => "2" | 3 => "3" | 4 => "4" | 5 => "5"
  | 6 => "6" | 7 => "7" | 8 => "8" | 9 => "9" | 10 => "a" | 11 => "b"
  | 12 => "c" | 13 => "d" | 14 => "e" | _ => "f"
  end%char%nat.

Definition isprintable (c : ascii) : bool :=
  let n := ord c in
  ((Nat.leb 32 n && Nat.leb n 126)
   || (Nat.leb 161 n && negb (Nat.eqb n 173)))%bool.

Definition escape_char (quote c : ascii) : string :=
  if (Ascii.eqb c quote || Ascii.eqb c BACKSLASH)%bool
  then String BACKSLASH (String c EmptyString)
  else if Ascii.eqb c TAB then String BACKSLASH "t"
  else if Ascii.eqb c LF then String BACKSLASH "n"
  else if Ascii.eqb c CR then String BACKSLASH "r"
  else if isprintable c then String c EmptyString
  else String BACKSLASH
         (String "x" (String (hexdigit (ord c / 16)%nat)
                        (String (hexdigit (ord c mod 16)%nat) EmptyString))).

Fixpoint escape (quote : ascii) (s : string) : string :=
  match s with
  | EmptyString => EmptyString
  | String c rest => escape_char quote c ++ escape quote rest
  end.

Definition repr_quote (s : string) : ascii :=
  if (contains SQUOTE s && negb (contains DQUOTE s))%bool
  then DQUOTE else SQUOTE.

Definition repr (s : string) : string :=
  let q := repr_quote s in
  String q (escape q s ++ String q EmptyString).

End PyStr.

(** ** Outcomes of a call *)

(** The exceptions the renderer meets.  [AttributeError] stands for the
    class and its subclasses, which [except AttributeError] catches
    alike. *)
Inductive exn :=
| AttributeError
| TypeError (msg : string)
| ValueError (msg : string)
| OtherError (name : string).

Definition is_AttributeError (e : exn) : bool :=
  match e with AttributeError => true | _ => false end.

(** The outcome of a call: the value returned, the exception raised by
    the code, or [OutOfFuel] when the nesting of [_repr] calls exceeds
    what the host admits (the host's [RecursionError]). *)
Inductive res (A : Type) :=
| Ret (x : A)
| Raise (e : exn)
| OutOfFuel.
Arguments Ret {A} x.
Arguments Raise {A} e.
Arguments OutOfFuel {A}.

Definition addr := nat.

(** One entry of the call log: [_repr] was entered for the object at
    [call_obj] with [_depth = call_depth]. *)
Record call := mkCall { call_obj : addr; call_depth : Z }.

(** A computation yields its outcome and the log of the [_repr] calls
    made while it ran. *)
Definition M (A : Type) : Type := (res A * list call)%type.

Definition result {A} (m : M A) : res A := fst m.
Definition calls {A} (m : M A) : list call := snd m.

Definition ret {A} (x : A) : M A := (Ret x, []).
Definition raise {A} (e : exn) : M A := (Raise e, []).
Definition out_of_fuel {A} : M A := (OutOfFuel, []).
Definition enter (c : call) : M unit := (Ret tt, [c]).

Definition bind {A B} (m : M A) (f : A -> M B) : M B :=
  match m with
  | (Ret x, w) => let (r, w') := f x in (r, (w ++ w')%list)
  | (Raise e, w) => (Raise e, w)
  | (OutOfFuel, w) => (OutOfFuel, w)
  end.

Notation "x <- m ;; k" := (bind m (fun x => k))
  (at level 61, m at next level, right associativity).

(** ** The data the renderer walks *)

(** [REPR_LINE_MODE = Literal["single", "multiple"]] *)
Inductive REPR_LINE_MODE := single | multiple.

Definition mode_str (m : REPR_LINE_MODE) : string :=
  match m with single => "single" | multiple => "multiple" end.

(** Truth value of a [str]: every non-empty string is true. *)
Definition truthy (s : string) : bool :=
  match s with EmptyString => false | String _ _ => true end.

(** What [getattr(obj, field)] does: it returns the object at an address
    or raises. *)
Inductive lookup :=
| Found (a : addr)
| Raises (e : exn).

(** An instance of a class decorated with [kis_repr]: the class name,
    the arguments of the decorator, the names [dir(obj)] lists and the
    behaviour of each attribute. *)
Record kis_object := mkKis {
  class_name : string;
  kis_fields : list string;
  kis_lines : option REPR_LINE_MODE;
  kis_field_lines : option (list (string * REPR_LINE_MODE));
  kis_indent : string;
  kis_max_depth : Z;
  kis_dir : list string;
  kis_attrs : list (string * lookup)
}.

(** A mapping key is given by the text of its host [repr(k)]; a key
    whose [repr] calls back into the renderer (a [kis_repr] record) is
    not an input. *)
Definition key := string.

(** The objects [_repr] tells apart, in the order of its tests.  An
    [OOpaque] leaf is any other object, given by the text of its host
    [repr]; a leaf whose [repr] calls back into the renderer (a bound
    method of a [kis_repr] record) is not an input. *)
Inductive obj :=
| ODict (items : list (key * addr))
| OList (items : list addr)
| OTuple (items : list addr)
| OSet (items : list addr)
| OKis (o : kis_object)
| OUnbounded
| OOpaque (repr : string).

Definition heap := addr -> obj.

(** The value bound in [object_repr]'s loop: the [UNBOUNDED] singleton
    or another object. *)
Inductive value :=
| UNBOUNDED
| Ref (a : addr).

(** An entry of [object_repr]'s [values]: rendered text, or the
    [UNBOUNDED] object itself. *)
Inductive rendered :=
| Text (s : string)
| Unrendered.

Definition SINGLE_LINE_MAX_LENGTH : Z := 120.

Definition NL : string := String PyStr.LF EmptyString.
Definition DQ : string := String PyStr.DQUOTE EmptyString.

(** ** Small pieces of the host language *)

(** [ellipsis or length]: [None] and [0] are both false. *)
Definition or_length (ellipsis : option Z) (length : Z) : Z :=
  match ellipsis with
  | None => length
  | Some e => if e =? 0 then length else e
  end.

Definition list_len {A} (l : list A) : Z := Z.of_nat (List.length l).

Fixpoint assoc {A} (k : string) (l : list (string * A)) : option A :=
  match l with
  | [] => None
  | (k', x) :: rest => if String.eqb k' k then Some x else assoc k rest
  end.

Definition getattr (o : kis_object) (field : string) : lookup :=
  match assoc field (kis_attrs o) with
  | Some lk => lk
  | None => Raises AttributeError
  end.

Definition startswith_underscore (f : string) : bool :=
  match f with
  | String c _ => Ascii.eqb c "_"%char
  | EmptyString => false
  end.

(** [len(v)], ["\n" in v] and [f"{v}"] on an entry of [values]. *)
Definition len_rendered (v : rendered) : M Z :=
  match v with
  | Text s => ret (PyStr.len s)
  | Unrendered =>
      raise (TypeError "object of type 'UnboundedType' has no len()")
  end.

Definition newline_in_rendered (v : rendered) : M bool :=
  match v with
  | Text s => ret (PyStr.has_newline s)
  | Unrendered =>
      raise (TypeError "argument of type 'UnboundedType' is not iterable")
  end.

Definition format_rendered (v : rendered) : string :=
  match v with
  | Text s => s
  | Unrendered => "Unbounded"
  end.

(** ** Writing into the buffer *)

Definition write (sb : string) (s : string) : string := sb ++ s.

Fixpoint append_lines (sb : string) (indent : string) (i : Z)
  (lines : list string) : string :=
  match lines with
  | [] => sb
  | l :: rest =>
      let sb := if i >? 0 then write sb NL else sb in
      let sb := write sb indent in
      let sb := write sb l in
      append_lines sb indent (i + 1) rest
  end.

Definition _append_with_indent (sb : string) (value : string)
  (indent : string) : string :=
  append_lines sb indent 0 (PyStr.splitlines value).

(** [for i, e in enumerate(entries): if i > 0: sb.write(sep); sb.write(e)] *)
Fixpoint write_entries (sb : string) (sep : string) (i : Z)
  (entries : list string) : string :=
  match entries with
  | [] => sb
  | e :: rest =>
      let sb := if i >? 0 then write sb sep else sb in
      write_entries (write sb e) sep (i + 1) rest
  end.

(** The same loop with [_append_with_indent(sb, e, indent)] as body. *)
Fixpoint write_entries_indented (sb : string) (sep : string)
  (indent : string) (i : Z) (entries : list string) : string :=
  match entries with
  | [] => sb
  | e :: rest =>
      let sb := if i >? 0 then write sb sep else sb in
      write_entries_indented (_append_with_indent sb e indent)
        sep indent (i + 1) rest
  end.

(** ** The renderers

    The four renderers call each other through [_repr]; here [rec]
    stands for that call, [rec obj lines indent max_depth _depth]. *)

Section Renderers.

Variable h : heap.
Variable rec : addr -> option REPR_LINE_MODE -> string -> Z -> Z -> M string.

(** *** dict_repr *)

(** The loop that fills [values]; [cap] is [ellipsis or length]. *)
Fixpoint dict_values (i cap : Z) (items : list (key * addr))
  (indent : string) (max_depth _depth : Z) : M (list (string * string)) :=
  match items with
  | [] => ret []
  | (k, v) :: rest =>
      if i >=? cap then ret []
      else
        rv <- rec v None indent max_depth (_depth + 1) ;;
        values <- dict_values (i + 1) cap rest indent max_depth _depth ;;
        ret ((k, rv) :: values)
  end.

Definition dict_cost (values : list (string * string)) : Z :=
  fold_left (fun acc kv => acc + (PyStr.len (fst kv) + PyStr.len (snd kv) + 4))
    values 0.

Definition dict_lines (values : list (string * string))
  (has_ellipsis : bool) : REPR_LINE_MODE :=
  if ((list_len values <=? 5)
      && negb has_ellipsis
      && (dict_cost values - 1 <=? SINGLE_LINE_MAX_LENGTH)
      && negb (existsb (fun kv => PyStr.has_newline (snd kv)) values))%bool
  then single else multiple.

(** [f"{k!r}: {v}"], where [k] already is [repr] of the key. *)
Definition dict_entry (kv : string * string) : string :=
  PyStr.repr (fst kv) ++ ": " ++ snd kv.

(** The branch is taken on the truth value of [lines]. *)
Definition dict_write (lines : REPR_LINE_MODE) (indent : string)
  (values : list (string * string)) (has_ellipsis : bool) : string :=
  if truthy (mode_str lines) then
    let sb := write EmptyString "{" in
    let sb := write_entries sb ", " 0 (map dict_entry values) in
    let sb := if has_ellipsis then write sb ", ..." else sb in
    write sb "}"
  else
    let sb := write EmptyString ("{" ++ NL) in
    let sb := write_entries_indented sb ("," ++ NL) indent 0
                (map dict_entry values) in
    let sb := write sb NL in
    let sb := if has_ellipsis
              then write (write sb indent) ("..." ++ NL) else sb in
    write sb "}".

Definition dict_repr (dct : list (key * addr))
  (lines : option REPR_LINE_MODE) (indent : string) (ellipsis : option Z)
  (max_depth _depth : Z) : M string :=
  if _depth >=? max_depth then ret "{:...}"
  else
    let length := list_len dct in
    let has_ellipsis := length >? or_length ellipsis length in
    values <- dict_values 0 (or_length ellipsis length) dct
                indent max_depth _depth ;;
    let lines := match lines with
                 | None => dict_lines values has_ellipsis
                 | Some l => l
                 end in
    ret (dict_write lines indent values has_ellipsis).

(** *** _iterable_repr and its three callers *)

Fixpoint iterable_values (i cap : Z) (lst : list addr)
  (indent : string) (max_depth _depth : Z) : M (list string) :=
  match lst with
  | [] => ret []
  | value :: rest =>
      if i >=? cap then ret []
      else
        rv <- rec value None indent max_depth (_depth + 1) ;;
        values <- iterable_values (i + 1) cap rest indent max_depth _depth ;;
        ret (rv :: values)
  end.

Definition iterable_cost (values : list string) : Z :=
  fold_left (fun acc v => acc + (PyStr.len v + 2)) values 0.

Definition iterable_lines (values : list string) (has_ellipsis : bool)
  : REPR_LINE_MODE :=
  if ((list_len values <=? 5)
      && negb has_ellipsis
      && (iterable_cost values - 1 <=? SINGLE_LINE_MAX_LENGTH)
      && negb (existsb PyStr.has_newline values))%bool
  then single else multiple.

Definition iterable_write (open_tie close_tie : string)
  (lines : REPR_LINE_MODE) (indent : string) (values : list string)
  (has_ellipsis : bool) : string :=
  if String.eqb (mode_str lines) "single" then
    let sb := write EmptyString open_tie in
    let sb := write_entries sb ", " 0 values in
    let sb := if has_ellipsis then write sb ", ..." else sb in
    write sb close_tie
  else
    let sb := write (write EmptyString open_tie) NL in
    let sb := write_entries_indented sb ("," ++ NL) indent 0 values in
    let sb := write sb NL in
    let sb := if has_ellipsis
              then write (write sb indent) ("..." ++ NL) else sb in
    write sb close_tie.

Definition tie_degenerate (tie : string) : bool :=
  ((PyStr.len tie =? 0) || negb (PyStr.len tie mod 2 =? 0))%bool.

Definition open_of (tie : string) : string :=
  substring 0 (String.length tie / 2) tie.

Definition close_of (tie : string) : string :=
  substring (String.length tie / 2)
    (String.length tie - String.length tie / 2) tie.

Definition tie_message : string := "tie must be even length".

(** [lst] is the list of the elements in iteration order, which is what
    [list(lst)] makes of any other iterable. *)

Definition _iterable_repr (lst : list addr) (tie : string)
  (lines : option REPR_LINE_MODE) (indent : string) (ellipsis : option Z)
  (max_depth _depth : Z) : M string :=
  if tie_degenerate tie then raise (ValueError tie_message)
  else
    let open_tie := open_of tie in
    let close_tie := close_of tie in
    if _depth >=? max_depth then ret (open_tie ++ "..." ++ close_tie)
    else
      let length := list_len lst in
      let has_ellipsis := length >? or_length ellipsis length in
      values <- iterable_values 0 (or_length ellipsis length) lst
                  indent max_depth _depth ;;
      let lines := match lines with
                   | None => iterable_lines values has_ellipsis
                   | Some l => l
                   end in
      ret (iterable_write open_tie close_tie lines indent values
             has_ellipsis).

Definition list_repr (lst : list addr) lines indent ellipsis
  (max_depth _depth : Z) : M string :=
  _iterable_repr lst "[]" lines indent ellipsis max_depth _depth.

Definition tuple_repr (tpl : list addr) lines indent ellipsis
  (max_depth _depth : Z) : M string :=
  _iterable_repr tpl "()" lines indent ellipsis max_depth _depth.

Definition set_repr (st : list addr) lines indent ellipsis
  (max_depth _depth : Z) : M string :=
  _iterable_repr st "{}" lines indent ellipsis max_depth _depth.

(** *** object_repr *)

(** [try: value = getattr(obj, field) except AttributeError:
    value = UNBOUNDED]; a field may also hold the singleton itself. *)
Definition field_value (o : kis_object) (field : string) : M value :=
  match getattr o field with
  | Found a =>
      ret (match h a with OUnbounded => UNBOUNDED | _ => Ref a end)
  | Raises e => if is_AttributeError e then ret UNBOUNDED else raise e
  end.

(** [field_lines.get(field) if field_lines else None] *)
Definition field_mode (field_lines : option (list (string * REPR_LINE_MODE)))
  (field : string) : option REPR_LINE_MODE :=
  match field_lines with
  | None => None
  | Some fl => assoc field fl
  end.

Fixpoint object_values (o : kis_object) (fields : list string)
  (field_lines : option (list (string * REPR_LINE_MODE)))
  (indent : string) (max_depth _depth : Z)
  : M (list (string * rendered)) :=
  match fields with
  | [] => ret []
  | field :: rest =>
      value <- field_value o field ;;
      rv <- match value with
            | UNBOUNDED => ret Unrendered
            | Ref a =>
                s <- rec a (field_mode field_lines field) indent
                       max_depth (_depth + 1) ;;
                ret (Text s)
            end ;;
      values <- object_values o rest field_lines indent max_depth _depth ;;
      ret ((field, rv) :: values)
  end.

(** [sum(len(k) + len(v) + 2 for k, v in values)] *)
Fixpoint object_cost (acc : Z) (values : list (string * rendered)) : M Z :=
  match values with
  | [] => ret acc
  | (k, v) :: rest =>
      n <- len_rendered v ;;
      object_cost (acc + (PyStr.len k + n + 2)) rest
  end.

(** [any("\n" in v for _, v in values)] *)
Fixpoint object_any_newline (values : list (string * rendered)) : M bool :=
  match values with
  | [] => ret false
  | (_, v) :: rest =>
      b <- newline_in_rendered v ;;
      if b then ret true else object_any_newline rest
  end.

(** The conjunction is evaluated left to right and stops at the first
    false operand. *)
Definition object_lines (values : list (string * rendered))
  : M REPR_LINE_MODE :=
  if negb (list_len values <=? 5) then ret multiple
  else
    cost <- object_cost 0 values ;;
    if negb (cost - 1 <=? SINGLE_LINE_MAX_LENGTH) then ret multiple
    else
      b <- object_any_newline values ;;
      ret (if negb b then single else multiple).

(** [f"{k}={v}"] *)
Definition object_entry (kv : string * rendered) : string :=
  fst kv ++ "=" ++ format_rendered (snd kv).

Definition object_write (name : string) (lines : REPR_LINE_MODE)
  (indent : string) (values : list (string * rendered)) : string :=
  if String.eqb (mode_str lines) "single" then
    let sb := write EmptyString (name ++ "(") in
    let sb := write_entries sb ", " 0 (map object_entry values) in
    write sb ")"
  else
    let sb := write EmptyString (name ++ "(" ++ NL) in
    let sb := write_entries_indented sb ("," ++ NL) indent 0
                (map object_entry values) in
    write sb (NL ++ ")").

Definition public_dir (o : kis_object) : list string :=
  filter (fun f => negb (startswith_underscore f)) (kis_dir o).

Definition object_repr (o : kis_object) (fields : option (list string))
  (lines : option REPR_LINE_MODE)
  (field_lines : option (list (string * REPR_LINE_MODE)))
  (indent : string) (max_depth _depth : Z) : M string :=
  if _depth >=? max_depth then ret (class_name o ++ "(...)")
  else
    let fields := match fields with
                  | None => public_dir o
                  | Some fs => fs
                  end in
    values <- object_values o fields field_lines indent max_depth _depth ;;
    lines <- match lines with
             | None => object_lines values
             | Some l => ret l
             end ;;
    ret (object_write (class_name o) lines indent values).

(** The [__repr__] that [kis_repr] installs: [fields or None] and the
    decorator's own [lines], [field_lines], [indent] and [max_depth]. *)
Definition kis___repr__ (o : kis_object) (_depth : Z) : M string :=
  object_repr o
    (match kis_fields o with [] => None | fs => Some fs end)
    (kis_lines o) (kis_field_lines o) (kis_indent o) (kis_max_depth o)
    _depth.

(** The body of [_repr] below its depth test.  The last branch is
    [repr(obj)] of a leaf, the text the leaf is given by. *)
Definition dispatch (obj : addr) (lines : option REPR_LINE_MODE)
  (indent : string) (max_depth _depth : Z) : M string :=
  match h obj with
  | ODict d => dict_repr d lines indent None max_depth _depth
  | OList l => list_repr l lines indent None max_depth _depth
  | OTuple t => tuple_repr t lines indent None max_depth _depth
  | OSet s => set_repr s lines indent None max_depth _depth
  | OKis o => kis___repr__ o _depth
  | OUnbounded => ret "Unbounded"
  | OOpaque r => ret r
  end.

End Renderers.

(** *** _repr *)

(** [fuel] is the number of nested [_repr] calls that the host's
    recursion limit admits (a level of nesting takes two or three host
    frames: [_repr], the renderer of the shape, and for a sequence or a
    record one more).  With none left the call ends with [OutOfFuel],
    as the source ends with [RecursionError]. *)
Fixpoint _repr (fuel : nat) (h : heap) (obj : addr)
  (lines : option REPR_LINE_MODE) (indent : string)
  (max_depth _depth : Z) {struct fuel} : M string :=
  match fuel with
  | O => out_of_fuel
  | S fuel' =>
      _ <- enter (mkCall obj _depth) ;;
      if _depth >=? max_depth then ret "..."
      else dispatch h (_repr fuel' h) obj lines indent max_depth _depth
  end.

(** The defaults of every signature. *)
Definition default_indent : string := "    ".
Definition default_max_depth : Z := 7.

(** ** Concrete inputs *)

Module Inputs.

(** A heap given by the list of its first objects; every other address
    holds [None]. *)
Definition heap_of (l : list obj) : heap :=
  fun a => nth a l (OOpaque "None").

(** Leaves: a small non-negative [int] and a [str], by their [repr]. *)
Definition digit (n : nat) : string :=
  String (ascii_of_nat (48 + n)) EmptyString.

Definition py_int (n : nat) : obj := OOpaque (digit n).
Definition py_str (s : string) : obj := OOpaque (PyStr.repr s).
Definition str_key (s : string) : key := PyStr.repr s.

(** [[1, 2, 3, 4, 5, 6]] at address 0. *)
Definition six : heap :=
  heap_of [OList [1; 2; 3; 4; 5; 6]%nat;
           py_int 1; py_int 2; py_int 3; py_int 4; py_int 5; py_int 6].

(** [[1, 2, 3]] at address 0. *)
Definition three : heap :=
  heap_of [OList [1; 2; 3]%nat; py_int 1; py_int 2; py_int 3].

(** [{"a": 1, "b": 2, "c": 3, "d": 4, "e": 5, "f": 6, "g": 7}] at 0. *)
Definition seven : heap :=
  heap_of [ODict [(str_key "a", 1); (str_key "b", 2); (str_key "c", 3);
                  (str_key "d", 4); (str_key "e", 5); (str_key "f", 6);
                  (str_key "g", 7)]%nat;
           py_int 1; py_int 2; py_int 3; py_int 4; py_int 5; py_int 6;
           py_int 7].

(** [{"a": 1}] at 0. *)
Definition one_entry : heap :=
  heap_of [ODict [(str_key "a", 1%nat)]; py_int 1].

(** [{"k": [1, 2, 3, 4, 5, 6]}] at 0. *)
Definition dict_of_six : heap :=
  heap_of [ODict [(str_key "k", 1%nat)];
           OList [2; 3; 4; 5; 6; 7]%nat;
           py_int 1; py_int 2; py_int 3; py_int 4; py_int 5; py_int 6].

(** [@kis_repr("symbol", "price") class Order] whose instance has
    [symbol = "AAPL"] and no [price]. *)
Definition Order : kis_object :=
  mkKis "Order" ["symbol"; "price"] None None default_indent
    default_max_depth ["price"; "symbol"] [("symbol", Found 1%nat)].

Definition order : heap := heap_of [OKis Order; py_str "AAPL"].

(** The same class with a [price] property that raises [KeyError]. *)
Definition BrokenOrder : kis_object :=
  mkKis "Order" ["symbol"; "price"] None None default_indent
    default_max_depth ["price"; "symbol"]
    [("symbol", Found 1%nat); ("price", Raises (OtherError "KeyError"))].

Definition broken_order : heap := heap_of [OKis BrokenOrder; py_str "AAPL"].

(** Eight lists inside each other, the innermost holding [0]:
    address [i] holds [[i + 1]] for [i < 8]. *)
Definition nested8 : heap :=
  fun a => if Nat.ltb a 8 then OList [S a] else py_int 0.

(** A list that holds a record whose field [next] is that list. *)
Definition Node : kis_object :=
  mkKis "Node" ["next"] None None default_indent default_max_depth
    ["next"] [("next", Found 0%nat)].

Definition cycle : heap := heap_of [OList [1%nat]; OKis Node].

(** A list that is its own only element. *)
Definition self_list : heap := fun _ => OList [0%nat].

(** A record whose attribute [price] holds the [UNBOUNDED] object. *)
Definition Holding : kis_object :=
  mkKis "Holding" ["price"] None None default_indent default_max_depth
    ["price"] [("price", Found 1%nat)].

Definition holding : heap := heap_of [OKis Holding; OUnbounded].

End Inputs.

(** ** Vocabulary of the statements *)

(** The computation ends within the fuel it was given. *)
Definition returns_or_raises (A : Type) (m : M A) : Prop :=
  result m <> OutOfFuel.

(** Every [_repr] call of the log was made at a depth of at most [B]. *)
Definition calls_within (B : Z) (A : Type) (m : M A) : Prop :=
  Forall (fun c => call_depth c <= B) (calls m).

(** The computation raises [allowed] exceptions only. *)
Definition raises_only (allowed : exn -> Prop) (A : Type) (m : M A) : Prop :=
  forall e, result m = Raise e -> allowed e.

(** The exceptions a render call can end with: the [TypeError] of
    [len] or [in] applied to the [UNBOUNDED] object, and whatever an
    attribute of a record of the heap raises. *)
Definition from_accessor (h : heap) (e : exn) : Prop :=
  exists a o f, h a = OKis o /\ getattr o f = Raises e.

Definition is_TypeError (e : exn) : Prop :=
  exists msg, e = TypeError msg.

Definition render_exn (h : heap) (e : exn) : Prop :=
  is_TypeError e \/ from_accessor h e.

(** The record classes of [h] declare a [max_depth] of at most [B]. *)
Definition max_depth_bounded (h : heap) (B : Z) : Prop :=
  forall a o, h a = OKis o -> kis_max_depth o <= B.

(** The element at [a] of a container rendered at [_depth] renders to
    [v]; the item of a mapping renders to the entry [(repr(k), v)]. *)
Definition renders_to
  (rec : addr -> option REPR_LINE_MODE -> string -> Z -> Z -> M string)
  (indent : string) (max_depth _depth : Z) (a : addr) (v : string) : Prop :=
  result (rec a None indent max_depth (_depth + 1)) = Ret v.

Definition entry_renders_to
  (rec : addr -> option REPR_LINE_MODE -> string -> Z -> Z -> M string)
  (indent : string) (max_depth _depth : Z) (item : key * addr)
  (entry : string * string) : Prop :=
  fst entry = fst item
  /\ result (rec (snd item) None indent max_depth (_depth + 1))
     = Ret (snd entry).

(** The two forms of the truncation marker: after the entries of a
    line, and as a line of its own in a block. *)
Definition ellipsis_marker (indent marker : string) : Prop :=
  marker = ", ..." \/ marker = indent ++ "..." ++ NL.

(** What truncation at [k] promises of a sequence or set [lst] whose
    retained entries render to [values]. *)
Definition truncated_iterable
  (rec : addr -> option REPR_LINE_MODE -> string -> Z -> Z -> M string)
  (k : Z) (lines : option REPR_LINE_MODE) (indent : string)
  (max_depth _depth : Z) (lst : list addr) (tie : string)
  (values : list string) : Prop :=
  exists mode,
    let out := iterable_write (open_of tie) (close_of tie) mode indent
                 values in
    let got := result (_iterable_repr rec lst tie lines indent (Some k)
                         max_depth _depth) in
    (list_len lst > k ->
     list_len values = k /\ got = Ret (out true)
     /\ exists pre marker post,
          ellipsis_marker indent marker
          /\ out true = pre ++ marker ++ post
          /\ out false = pre ++ post)
    /\ (list_len lst <= k ->
        firstn (Z.to_nat k) lst = lst
        /\ list_len values = list_len lst /\ got = Ret (out false)).

(** The same of a mapping [dct]. *)
Definition truncated_dict
  (rec : addr -> option REPR_LINE_MODE -> string -> Z -> Z -> M string)
  (k : Z) (lines : option REPR_LINE_MODE) (indent : string)
  (max_depth _depth : Z) (dct : list (key * addr))
  (values : list (string * string)) : Prop :=
  exists mode,
    let out := dict_write mode indent values in
    let got := result (dict_repr rec dct lines indent (Some k)
                         max_depth _depth) in
    (list_len dct > k ->
     list_len values = k /\ got = Ret (out true)
     /\ exists pre marker post,
          ellipsis_marker indent marker
          /\ out true = pre ++ marker ++ post
          /\ out false = pre ++ post)
    /\ (list_len dct <= k ->
        firstn (Z.to_nat k) dct = dct
        /\ list_len values = list_len dct /\ got = Ret (out false)).

(** [s] between double quotes. *)
Definition quoted (s : string) : string := DQ ++ s ++ DQ.

(** ** Vocabulary of the further statements *)

(** The block that [_append_with_indent] writes for [value]: its lines,
    each after one [indent], joined by line breaks. *)
Definition indented (indent value : string) : string :=
  String.concat NL (map (append indent) (PyStr.splitlines value)).

(** Every element after one separator. *)
Fixpoint sep_each (sep : string) (l : list string) : string :=
  match l with
  | [] => EmptyString
  | x :: rest => sep ++ x ++ sep_each sep rest
  end.

(** No character of [s] ends a line. *)
Definition one_line (s : string) : Prop :=
  forall c, PyStr.contains c s = true -> PyStr.is_linebreak c = false.

(** The text written after the entries when the container is
    truncated. *)
Definition single_tail (has_ellipsis : bool) : string :=
  if has_ellipsis then ", ..." else EmptyString.

Definition block_tail (indent : string) (has_ellipsis : bool) : string :=
  if has_ellipsis then indent ++ "..." ++ NL else EmptyString.

(** The rendered entries of a sequence or set fit on one line. *)
Definition fits_one_line (values : list string) (has_ellipsis : bool)
  : Prop :=
  list_len values <= 5
  /\ has_ellipsis = false
  /\ iterable_cost values - 1 <= SINGLE_LINE_MAX_LENGTH
  /\ Forall (fun v => PyStr.has_newline v = false) values.

(** [has_ellipsis] as [_iterable_repr] and [dict_repr] compute it. *)
Definition truncated (ellipsis : option Z) (length : Z) : bool :=
  length >? or_length ellipsis length.

(** The entries a container keeps. *)
Definition retained {A} (ellipsis : option Z) (l : list A) : list A :=
  firstn (Z.to_nat (or_length ellipsis (list_len l))) l.

(** The [_repr] calls made for the entries [l], one after the other. *)
Definition entry_calls
  (rec : addr -> option REPR_LINE_MODE -> string -> Z -> Z -> M string)
  (indent : string) (max_depth _depth : Z) (l : list addr) : list call :=
  List.concat
    (map (fun a => calls (rec a None indent max_depth (_depth + 1))) l).

(** A truncation count as the signatures allow it: absent or not
    negative. *)
Definition ellipsis_in_range (ellipsis : option Z) : Prop :=
  match ellipsis with
  | None => True
  | Some k => 0 <= k
  end.


(** The field [field] of the record [o], rendered at [_depth], gives
    the entry [entry] of [values]: the sentinel itself when the lookup
    degrades, and the text of the value otherwise. *)
Definition field_renders_to (h : heap)
  (rec : addr -> option REPR_LINE_MODE -> string -> Z -> Z -> M string)
  (o : kis_object) (field_lines : option (list (string * REPR_LINE_MODE)))
  (indent : string) (max_depth _depth : Z) (field : string)
  (entry : string * rendered) : Prop :=
  fst entry = field
  /\ match snd entry with
     | Unrendered => result (field_value h o field) = Ret UNBOUNDED
     | Text s =>
         exists a,
           result (field_value h o field) = Ret (Ref a)
           /\ result (rec a (field_mode field_lines field) indent max_depth
                        (_depth + 1)) = Ret s
     end.

(** Every field was found. *)
Definition all_rendered (values : list (string * rendered)) : Prop :=
  Forall (fun kv => snd kv <> Unrendered) values.

(** [sum(len(k) + len(v) + 2 for k, v in values)] when every [v] is
    text. *)
Definition record_cost (values : list (string * rendered)) : Z :=
  fold_right
    (fun kv acc => PyStr.len (fst kv) + PyStr.len (format_rendered (snd kv))
                   + 2 + acc)
    0 values.

(** The rendered fields of a record fit on one line. *)
Definition record_fits_one_line (values : list (string * rendered)) : Prop :=
  list_len values <= 5
  /\ record_cost values - 1 <= SINGLE_LINE_MAX_LENGTH
  /\ Forall (fun kv => PyStr.has_newline (format_rendered (snd kv)) = false)
       values.

(** ** Further inputs *)

Module MoreInputs.

(** [@kis_repr("symbol", "price") class Quote] with both fields set. *)
Definition Quote : kis_object :=
  mkKis "Quote" ["symbol"; "price"] None None default_indent
    default_max_depth ["price"; "symbol"]
    [("symbol", Found 1%nat); ("price", Found 2%nat)].

Definition quote : heap :=
  Inputs.heap_of [OKis Quote; Inputs.py_str "AAPL"; Inputs.py_int 7].

(** A class of six declared fields whose instance has the first only. *)
Definition Wide : kis_object :=
  mkKis "Wide" ["a"; "b"; "c"; "d"; "e"; "f"] None None default_indent
    default_max_depth ["a"] [("a", Found 1%nat)].

Definition wide : heap := Inputs.heap_of [OKis Wide; Inputs.py_int 1].

End MoreInputs.

(** * pykis.api.account.daily_order

    The look-ups of [KisDailyOrders], the code tables and the two query
    functions.  The classes this module imports from the rest of the
    package ([KisOrder], [KisAccountNumber], [KisPage], the client's
    [fetch]) are parameters; the outside world a query talks to (the
    server and the clock) is a state that every call threads. *)

Module DailyOrder.

Definition KeyError : exn := OtherError "KeyError".
Definition IndexError : exn := OtherError "IndexError".

(** [l[i]] on a [list]: a negative index counts from the end, an index
    outside [-len(l) .. len(l) - 1] raises [IndexError]. *)
Definition list_getitem {A} (l : list A) (i : Z) : res A :=
  let n := list_len l in
  let j := if i <? 0 then i + n else i in
  if (j <? 0) || (j >=? n) then Raise IndexError
  else match nth_error l (Z.to_nat j) with
       | Some x => Ret x
       | None => Raise IndexError
       end.

(** ** KisDailyOrders *)

Section Orders.

(** [KisOrder] with its [==], and the two attributes of an order that
    the look-ups read. *)
Variable KisOrder : Type.
Variable order_eq : KisOrder -> KisOrder -> bool.
Variable Order : Type.
Variable symbol : Order -> string.
Variable order_number : Order -> KisOrder.

(** The key of a look-up, by the [isinstance] test it passes. *)
Inductive lookup_key :=
| KInt (i : Z)
| KStr (s : string)
| KOrder (k : KisOrder)
| KOther.

(** [for order in self.orders: if test(order): return order] *)
Fixpoint first_order (test : Order -> bool) (orders : list Order)
  : option Order :=
  match orders with
  | [] => None
  | order :: rest => if test order then Some order else first_order test rest
  end.

(** [KisDailyOrders.__getitem__] *)
Definition __getitem__ (orders : list Order) (key : lookup_key) : res Order :=
  match key with
  | KInt i => list_getitem orders i
  | KStr s =>
      match first_order (fun order => String.eqb (symbol order) s) orders with
      | Some order => Ret order
      | None => Raise KeyError
      end
  | KOrder k =>
      match first_order (fun order => order_eq (order_number order) k)
              orders with
      | Some order => Ret order
      | None => Raise KeyError
      end
  | KOther => Raise KeyError
  end.

(** [KisDailyOrders.order] *)
Definition order (orders : list Order) (key : lookup_key) : option Order :=
  match key with
  | KStr s => first_order (fun order => String.eqb (symbol order) s) orders
  | KOrder k =>
      first_order (fun order => order_eq (order_number order) k) orders
  | _ => None
  end.

(** [KisDailyOrders.__len__] *)
Definition __len__ (orders : list Order) : Z := list_len orders.

End Orders.

(** ** The code tables *)

(** The order type sent as [SLL_BUY_DVSN_CD] and the one read back from
    [sll_buy_dvsn_cd]. *)
Definition type_code (type : option string) : string :=
  match type with
  | None => "00"
  | Some t => if String.eqb t "buy" then "02" else "01"
  end.

Definition type_of_code (x : string) : string :=
  if String.eqb x "02" then "buy" else "sell".

(** [(country, market, condition)] by exchange code. *)
Definition DOMESTIC_EXCHANGE_CODE_MAP
  : list (string * (string * option string * option string)) :=
  [("01", ("KR", Some "KRX", None));
   ("02", ("KR", Some "KRX", None));
   ("03", ("KR", Some "KRX", None));
   ("04", ("KR", Some "KRX", None));
   ("05", ("KR", Some "KRX", None));
   ("06", ("KR", Some "KRX", None));
   ("07", ("KR", Some "KRX", None));
   ("21", ("KR", Some "KRX", None));
   ("51", ("HK", None, None));
   ("52", ("CN", Some "SHAA", None));
   ("53", ("CN", Some "SZAA", None));
   ("54", ("HK", None, None));
   ("55", ("US", None, None));
   ("56", ("JP", Some "TKSE", None));
   ("57", ("CN", Some "SHAA", None));
   ("58", ("CN", Some "SZAA", None));
   ("59", ("VN", None, None));
   ("61", ("KR", Some "KRX", Some "before"));
   ("64", ("KR", Some "KRX", None));
   ("65", ("KR", Some "KRX", None));
   ("81", ("KR", Some "KRX", Some "extended"))].

(** [d[k]] on a [dict] with [str] keys. *)
Definition dict_getitem {A} (d : list (string * A)) (k : string) : res A :=
  match assoc k d with
  | Some x => Ret x
  | None => Raise KeyError
  end.

(** What [KisDomesticDailyOrder.__pre_init__] sets from
    [data["excg_dvsn_cd"]]: the country, the market and its currency
    put into the cache when the table has a market, and the order
    condition.  [get_market_currency] comes from
    [pykis.api.stock.market]. *)
Section PreInit.

Variable Currency : Type.
Variable get_market_currency : string -> Currency.

Record exchange_fields := mkExchange {
  country : string;
  cached_market : option string;
  cached_currency : option Currency;
  condition : option string
}.

Definition __pre_init__ (excg_dvsn_cd : string) : res exchange_fields :=
  match dict_getitem DOMESTIC_EXCHANGE_CODE_MAP excg_dvsn_cd with
  | Ret (country, market, condition) =>
      Ret (match market with
           | Some mk =>
               if truthy mk
               then mkExchange country (Some mk)
                      (Some (get_market_currency mk)) condition
               else mkExchange country None None condition
           | None => mkExchange country None None condition
           end)
  | Raise e => Raise e
  | OutOfFuel => OutOfFuel
  end.

End PreInit.

(** [(real, recent)] to the API code. *)
Definition DOMESTIC_DAILY_ORDERS_API_CODES (real recent : bool) : string :=
  match real, recent with
  | true, true => "TTTC8001R"
  | true, false => "CTSC9115R"
  | false, true => "VTTC8001R"
  | false, false => "VTSC9115R"
  end.

(** ** Dates *)

Record date := mkDate { year : Z; month : Z; day : Z }.

(** [a > b] on dates compares year, month and day in this order. *)
Definition date_gt (a b : date) : bool :=
  (year a >? year b)
  || ((year a =? year b)
      && ((month a >? month b)
          || ((month a =? month b) && (day a >? day b)))).

(** [if start > end: start, end = end, start] *)
Definition ordered (start end_ : date) : date * date :=
  if date_gt start end_ then (end_, start) else (start, end_).

(** The test both query functions use for a date that is recent. *)
Definition recent (now d : date) : bool :=
  (year now - year d) * 12 - month now <=? 3.

(** ** The queries *)

Section Queries.

Variable World : Type.
Variable today : World -> date.

Variable Account : Type.
Variable KisAccountNumber : string -> res Account.

Variable KisPage : Type.
Variable first_page : KisPage.
Variable page_to : KisPage -> Z -> KisPage.
Variable is_first : KisPage -> bool.
Variable page_truthy : KisPage -> bool.

Variable Order : Type.

(** A computation in the world. *)
Definition Q (A : Type) : Type := World -> res A * World.

Definition qret {A} (x : A) : Q A := fun w => (Ret x, w).
Definition qraise {A} (e : exn) : Q A := fun w => (Raise e, w).
Definition qbind {A B} (m : Q A) (f : A -> Q B) : Q B :=
  fun w =>
    match m w with
    | (Ret x, w') => f x w'
    | (Raise e, w') => (Raise e, w')
    | (OutOfFuel, w') => (OutOfFuel, w')
    end.

(** A value of [params]: text, or a date that [strftime("%Y%m%d")]
    turns into text. *)
Inductive param :=
| PStr (s : string)
| PDate (d : date).

Record request := mkRequest {
  req_path : string;
  req_api : string;
  req_params : list (string * param);
  req_account : Account;
  req_page : KisPage;
  req_continuous : bool
}.

(** The part of a [KisDomesticDailyOrders] response the queries use. *)
Record response := mkResponse {
  orders : list Order;
  is_last : bool;
  next_page : KisPage
}.

Variable fetch : request -> Q response.

(** [first.orders.extend(more)] *)
Definition extend (first : response) (more : list Order) : response :=
  mkResponse (orders first ++ more) (is_last first) (next_page first).

Definition range_message : string :=
  "조회 기간은 최근 3개월 이내거나 3개월 이상이어야 합니다.".

Definition daily_request (real recent_ : bool) (start end_ : date)
  (type : option string) (account : Account) (page : KisPage) : request :=
  mkRequest "/uapi/domestic-stock/v1/trading/inquire-daily-ccld"
    (DOMESTIC_DAILY_ORDERS_API_CODES real recent_)
    [("INQR_STRT_DT", PDate start);
     ("INQR_END_DT", PDate end_);
     ("SLL_BUY_DVSN_CD", PStr (type_code type));
     ("INQR_DVSN", PStr "00");
     ("PDNO", PStr EmptyString);
     ("CCLD_DVSN", PStr "00");
     ("ORD_GNO_BRNO", PStr EmptyString);
     ("ODNO", PStr EmptyString);
     ("INQR_DVSN_3", PStr "00");
     ("INQR_DVSN_1", PStr EmptyString)]
    account page (negb (is_first page)).

(** The [while True] loop of [_domestic_daily_orders]; [fuel] bounds
    the number of pages. *)
Fixpoint fetch_pages (fuel : nat) (make : KisPage -> request)
  (continuous : bool) (page : KisPage) (first : option response)
  : Q response :=
  match fuel with
  | O => fun w => (OutOfFuel, w)
  | S fuel' =>
      qbind (fetch (make page)) (fun result =>
        let first := match first with
                     | None => result
                     | Some f => extend f (orders result)
                     end in
        if negb continuous || is_last result then qret first
        else fetch_pages fuel' make continuous (next_page result)
               (Some first))
  end.

(** The pages the server hands out from [page] on, up to the first one
    that says it is the last: the world before, the answers, the world
    after. *)
Inductive served (make : KisPage -> request)
  : World -> KisPage -> list response -> World -> Prop :=
| served_last w page r w' :
    fetch (make page) w = (Ret r, w') ->
    is_last r = true ->
    served make w page [r] w'
| served_more w page r w' rs w'' :
    fetch (make page) w = (Ret r, w') ->
    is_last r = false ->
    served make w' (next_page r) rs w'' ->
    served make w page (r :: rs) w''.

(** The orders of all the answers, in the order of the pages. *)
Definition all_orders (rs : list response) : list Order :=
  List.concat (map orders rs).

(** The range test of [_domestic_daily_orders] on an ordered range. *)
Definition rejected (now start end_ : date) : bool :=
  (month end_ + (year now - year end_) * 12 - month now >? 3)
  && recent now start.

Definition _domestic_daily_orders (fuel : nat) (virtual : bool)
  (account : string + Account) (start end_ : date) (type : option string)
  (page : option KisPage) (continuous : bool) : Q response :=
  qbind (fun w => (match account with
                   | inl s => KisAccountNumber s
                   | inr a => Ret a
                   end, w)) (fun account =>
  let (start, end_) := ordered start end_ in
  fun w =>
    let now := today w in
    let is_recent := recent now start in
    if (month end_ + (year now - year end_) * 12 - month now >? 3)
       && is_recent
    then qraise (ValueError range_message) w
    else
      let page := page_to (match page with
                           | Some p => if page_truthy p then p else first_page
                           | None => first_page
                           end) 100 in
      fetch_pages fuel
        (daily_request (negb virtual) is_recent start end_ type account)
        continuous page None w).

(** [now - timedelta(days=n)] *)
Variable minus_days : date -> Z -> date.

Definition domestic_daily_orders (fuel : nat) (virtual : bool)
  (account : string + Account) (start end_ : date) (type : option string)
  : Q response :=
  let (start, end_) := ordered start end_ in
  fun w =>
    let now := today w in
    if recent now start && recent now end_ then
      _domestic_daily_orders fuel virtual account start end_ type None true w
    else
      let split_start := minus_days now 90 in
      let split_start := mkDate (year split_start) (month split_start) 1 in
      qbind (_domestic_daily_orders fuel virtual account split_start end_
               type None true) (fun first =>
      qbind (_domestic_daily_orders fuel virtual account start
               (minus_days split_start 1) type None true) (fun second =>
      qret (extend first (orders second)))) w.

End Queries.

End DailyOrder.

(** ** A small world for the queries *)

Module DailyOrderInputs.

(** The world counts the requests served; the day is 15 June 2024. *)
Definition World : Type := nat.
Definition today (w : World) : DailyOrder.date := DailyOrder.mkDate 2024 6 15.

(** An account is its text; the empty text is refused. *)
Definition KisAccountNumber (text : string) : res string :=
  match text with
  | EmptyString => Raise (ValueError "account")
  | _ => Ret text
  end.

(** A page is its number. *)
Definition first_page : nat := 0%nat.
Definition page_to (p : nat) (size : Z) : nat := p.
Definition is_first (p : nat) : bool := Nat.eqb p 0.
Definition page_truthy (p : nat) : bool := true.

(** A server of two pages: two orders, then one. *)
Definition fetch (r : DailyOrder.request string nat)
  : DailyOrder.Q World (DailyOrder.response nat string) :=
  fun w =>
    (Ret (if Nat.eqb (DailyOrder.req_page string nat r) 0
          then DailyOrder.mkResponse nat string ["o1"; "o2"] false 1%nat
          else DailyOrder.mkResponse nat string ["o3"] true 1%nat),
     S w).

(** A stand-in for the calendar, with months of thirty days. *)
Definition minus_days (d : DailyOrder.date) (n : Z) : DailyOrder.date :=
  let days := (DailyOrder.year d * 12 + (DailyOrder.month d - 1)) * 30
              + (DailyOrder.day d - 1) - n in
  DailyOrder.mkDate (days / 360) (days mod 360 / 30 + 1) (days mod 30 + 1).

Definition query :=
  DailyOrder._domestic_daily_orders World today string KisAccountNumber nat
    first_page page_to is_first page_truthy string fetch.

Definition query_all :=
  DailyOrder.domestic_daily_orders World today string KisAccountNumber nat
    first_page page_to is_first page_truthy string fetch minus_days.

End DailyOrderInputs.

(** * Properties *)

(** ** The host primitives on examples *)

Example splitlines_plain : PyStr.splitlines "ab" = ["ab"].
Proof. reflexivity. Qed.

Example splitlines_empty : PyStr.splitlines EmptyString = [].
Proof. reflexivity. Qed.

Example splitlines_trailing :
  PyStr.splitlines ("a" ++ NL ++ NL ++ "b" ++ NL) = ["a"; EmptyString; "b"].
Proof. reflexivity. Qed.

Example splitlines_crlf :
  PyStr.splitlines (String "a" (String PyStr.CR (String PyStr.LF "b")))
  = ["a"; "b"].
Proof. reflexivity. Qed.

Example repr_plain : PyStr.repr "a" = "'a'".
Proof. reflexivity. Qed.

Example repr_twice : PyStr.repr (PyStr.repr "a") = quoted "'a'".
Proof. reflexivity. Qed.

Example self_list_three_deep :
  result (_repr 4 Inputs.self_list 0%nat None default_indent 3 0)
  = Ret "[[[...]]]".
Proof. reflexivity. Qed.

Example sequence_of_three :
  result (_repr 2 Inputs.three 0%nat None default_indent default_max_depth 0)
  = Ret "[1, 2, 3]".
Proof. reflexivity. Qed.

(** ** Laws of the outcome monad *)

Lemma bind_ret_l {A B} (x : A) (f : A -> M B) : bind (ret x) f = f x.
Proof. unfold bind, ret. destruct (f x); reflexivity. Qed.

Lemma result_bind {A B} (m : M A) (f : A -> M B) :
  result (bind m f)
  = match result m with
    | Ret x => result (f x)
    | Raise e => Raise e
    | OutOfFuel => OutOfFuel
    end.
Proof.
  destruct m as [[x | e |] w]; simpl; try reflexivity.
  destruct (f x); reflexivity.
Qed.

Lemma calls_bind {A B} (m : M A) (f : A -> M B) :
  calls (bind m f)
  = (calls m ++ match result m with
                | Ret x => calls (f x)
                | _ => []
                end)%list.
Proof.
  destruct m as [[x | e |] w]; simpl; try (rewrite app_nil_r; reflexivity).
  destruct (f x); reflexivity.
Qed.

(** ** Properties that every renderer inherits from [_repr]

[good] is a property of computations that holds of [ret], is kept
    by [bind], and holds of the [raise]s the renderers perform on
    [allowed] exceptions; [inv] restricts the [max_depth] under which
    the callback is known to be good. *)

Section Closure.

Variable good : forall A : Type, M A -> Prop.
Variable allowed : exn -> Prop.
Variable inv : Z -> Prop.

Hypothesis good_ret : forall A (x : A), good A (ret x).
Hypothesis good_raise : forall A e, allowed e -> good A (raise e).
Hypothesis good_bind : forall A B (m : M A) (f : A -> M B),
  good A m -> (forall x, result m = Ret x -> good B (f x)) ->
  good B (bind m f).
Hypothesis allowed_TypeError : forall msg, allowed (TypeError msg).

Variable h : heap.
Variable rec : addr -> option REPR_LINE_MODE -> string -> Z -> Z -> M string.
Variable _depth : Z.

Hypothesis good_rec : forall a l i m,
  inv m -> _depth < m -> good string (rec a l i m (_depth + 1)).

Lemma good_dict_values i cap items indent m :
  inv m -> _depth < m ->
  good _ (dict_values rec i cap items indent m _depth).
Proof.
  intros Hm Hd. revert i.
  induction items as [| [k v] rest IH]; intros i; simpl.
  - apply good_ret.
  - destruct (i >=? cap); [apply good_ret |].
    apply good_bind; [apply good_rec; assumption |].
    intros rv _. apply good_bind; [apply IH |].
    intros vs _. apply good_ret.
Qed.

Lemma good_dict_repr dct lines indent ellipsis m :
  inv m -> good _ (dict_repr rec dct lines indent ellipsis m _depth).
Proof.
  intros Hm. unfold dict_repr.
  destruct (_depth >=? m) eqn:E; [apply good_ret |].
  apply good_bind; [apply good_dict_values; [assumption | lia] |].
  intros vs _. apply good_ret.
Qed.

Lemma good_iterable_values i cap lst indent m :
  inv m -> _depth < m ->
  good _ (iterable_values rec i cap lst indent m _depth).
Proof.
  intros Hm Hd. revert i.
  induction lst as [| v rest IH]; intros i; simpl.
  - apply good_ret.
  - destruct (i >=? cap); [apply good_ret |].
    apply good_bind; [apply good_rec; assumption |].
    intros rv _. apply good_bind; [apply IH |].
    intros vs _. apply good_ret.
Qed.

Lemma good__iterable_repr lst tie lines indent ellipsis m :
  tie_degenerate tie = false -> inv m ->
  good _ (_iterable_repr rec lst tie lines indent ellipsis m _depth).
Proof.
  intros Ht Hm. unfold _iterable_repr. rewrite Ht.
  destruct (_depth >=? m) eqn:E; [apply good_ret |].
  apply good_bind; [apply good_iterable_values; [assumption | lia] |].
  intros vs _. apply good_ret.
Qed.

Lemma good_field_value o field :
  (forall f e, getattr o f = Raises e -> is_AttributeError e = false ->
               allowed e) ->
  good _ (field_value h o field).
Proof.
  intros Ho. unfold field_value.
  destruct (getattr o field) as [a | e] eqn:E; [apply good_ret |].
  destruct (is_AttributeError e) eqn:Ee; [apply good_ret |].
  apply good_raise. eapply Ho; eassumption.
Qed.

Lemma good_object_values o fields field_lines indent m :
  (forall f e, getattr o f = Raises e -> is_AttributeError e = false ->
               allowed e) ->
  inv m -> _depth < m ->
  good _ (object_values h rec o fields field_lines indent m _depth).
Proof.
  intros Ho Hm Hd.
  induction fields as [| field rest IH]; simpl.
  - apply good_ret.
  - apply good_bind; [apply good_field_value; assumption |].
    intros value _. apply good_bind.
    + destruct value as [| a]; [apply good_ret |].
      apply good_bind; [apply good_rec; assumption |].
      intros s _. apply good_ret.
    + intros rv _. apply good_bind; [apply IH |].
      intros vs _. apply good_ret.
Qed.

Lemma good_len_rendered v : good _ (len_rendered v).
Proof.
  destruct v; simpl; [apply good_ret | apply good_raise, allowed_TypeError].
Qed.

Lemma good_newline_in_rendered v : good _ (newline_in_rendered v).
Proof.
  destruct v; simpl; [apply good_ret | apply good_raise, allowed_TypeError].
Qed.

Lemma good_object_cost acc values : good _ (object_cost acc values).
Proof.
  revert acc. induction values as [| [k v] rest IH]; intros acc; simpl.
  - apply good_ret.
  - apply good_bind; [apply good_len_rendered |].
    intros n _. apply IH.
Qed.

Lemma good_object_any_newline values : good _ (object_any_newline values).
Proof.
  induction values as [| [k v] rest IH]; simpl.
  - apply good_ret.
  - apply good_bind; [apply good_newline_in_rendered |].
    intros b _. destruct b; [apply good_ret | apply IH].
Qed.

Lemma good_object_lines values : good _ (object_lines values).
Proof.
  unfold object_lines.
  destruct (negb (list_len values <=? 5)); [apply good_ret |].
  apply good_bind; [apply good_object_cost |].
  intros cost _.
  destruct (negb (cost - 1 <=? SINGLE_LINE_MAX_LENGTH)); [apply good_ret |].
  apply good_bind; [apply good_object_any_newline |].
  intros b _. apply good_ret.
Qed.

Lemma good_object_repr o fields lines field_lines indent m :
  (forall f e, getattr o f = Raises e -> is_AttributeError e = false ->
               allowed e) ->
  inv m ->
  good _ (object_repr h rec o fields lines field_lines indent m _depth).
Proof.
  intros Ho Hm. unfold object_repr.
  destruct (_depth >=? m) eqn:E; [apply good_ret |].
  apply good_bind; [apply good_object_values; [assumption | assumption | lia] |].
  intros vs _. apply good_bind.
  - destruct lines; [apply good_ret | apply good_object_lines].
  - intros l _. apply good_ret.
Qed.

Lemma good_dispatch obj lines indent m :
  (forall o, h obj = OKis o ->
     inv (kis_max_depth o)
     /\ forall f e, getattr o f = Raises e -> is_AttributeError e = false ->
                  allowed e) ->
  inv m ->
  good _ (dispatch h rec obj lines indent m _depth).
Proof.
  intros Ho Hm. unfold dispatch.
  destruct (h obj) as [d | l | t | s | o | | r] eqn:E.
  - apply good_dict_repr; assumption.
  - apply good__iterable_repr; [reflexivity | assumption].
  - apply good__iterable_repr; [reflexivity | assumption].
  - apply good__iterable_repr; [reflexivity | assumption].
  - destruct (Ho o eq_refl) as [Hi Ha].
    apply good_object_repr; assumption.
  - apply good_ret.
  - apply good_ret.
Qed.

End Closure.

(** ** Three instances: fuel, call depth, origin of exceptions *)

Lemma returns_or_raises_bind A B (m : M A) (f : A -> M B) :
  returns_or_raises A m ->
  (forall x, result m = Ret x -> returns_or_raises B (f x)) ->
  returns_or_raises B (bind m f).
Proof.
  unfold returns_or_raises. intros Hm Hf. rewrite result_bind.
  destruct (result m) as [x | e |] eqn:E.
  - apply Hf. reflexivity.
  - discriminate.
  - exfalso. apply Hm. reflexivity.
Qed.

Lemma calls_within_bind bound A B (m : M A) (f : A -> M B) :
  calls_within bound A m ->
  (forall x, result m = Ret x -> calls_within bound B (f x)) ->
  calls_within bound B (bind m f).
Proof.
  unfold calls_within. intros Hm Hf. rewrite calls_bind.
  apply Forall_app. split; [exact Hm |].
  destruct (result m) as [x | e |] eqn:E.
  - apply Hf. reflexivity.
  - constructor.
  - constructor.
Qed.

Lemma raises_only_bind allowed A B (m : M A) (f : A -> M B) :
  raises_only allowed A m ->
  (forall x, result m = Ret x -> raises_only allowed B (f x)) ->
  raises_only allowed B (bind m f).
Proof.
  unfold raises_only. intros Hm Hf e. rewrite result_bind.
  destruct (result m) as [x | e' |] eqn:E.
  - apply Hf. reflexivity.
  - intros H. injection H as <-. apply Hm. reflexivity.
  - discriminate.
Qed.

Lemma _repr_S fuel h obj lines indent max_depth _depth :
  _repr (S fuel) h obj lines indent max_depth _depth
  = (_ <- enter (mkCall obj _depth) ;;
     if _depth >=? max_depth then ret "..."
     else dispatch h (_repr fuel h) obj lines indent max_depth _depth).
Proof. reflexivity. Qed.

Lemma _repr_returns_or_raises h B :
  max_depth_bounded h B ->
  forall fuel obj lines indent max_depth _depth,
    max_depth <= B ->
    (Z.to_nat (B - _depth) < fuel)%nat ->
    returns_or_raises _ (_repr fuel h obj lines indent max_depth _depth).
Proof.
  intros HB. induction fuel as [| fuel IH]; intros obj lines indent m t Hm Hf.
  - lia.
  - rewrite _repr_S. apply returns_or_raises_bind; [discriminate |].
    intros _ _. destruct (t >=? m) eqn:E; [discriminate |].
    apply (good_dispatch returns_or_raises (fun _ => True) (fun m => m <= B)).
    + discriminate.
    + discriminate.
    + apply returns_or_raises_bind.
    + intros _. exact I.
    + intros a l i m' Hm' Hd. apply IH; [exact Hm' | lia].
    + intros o Ho. split; [eapply HB; eassumption | trivial].
    + exact Hm.
Qed.

Lemma _repr_calls_within h B :
  max_depth_bounded h B ->
  forall fuel obj lines indent max_depth _depth,
    max_depth <= B -> _depth <= B ->
    calls_within B _ (_repr fuel h obj lines indent max_depth _depth).
Proof.
  intros HB. induction fuel as [| fuel IH]; intros obj lines indent m t Hm Ht.
  - constructor.
  - rewrite _repr_S. apply calls_within_bind.
    + constructor; [exact Ht | constructor].
    + intros _ _. destruct (t >=? m) eqn:E; [constructor |].
      apply (good_dispatch (calls_within B) (fun _ => True) (fun m => m <= B)).
      * intros; constructor.
      * intros; constructor.
      * apply calls_within_bind.
      * intros _. exact I.
      * intros a l i m' Hm' Hd. apply IH; [exact Hm' | lia].
      * intros o Ho. split; [eapply HB; eassumption | trivial].
      * exact Hm.
Qed.

Lemma _repr_raises_only h :
  forall fuel obj lines indent max_depth _depth,
    raises_only (render_exn h) _
      (_repr fuel h obj lines indent max_depth _depth).
Proof.
  induction fuel as [| fuel IH]; intros obj lines indent m t.
  - intros e H. discriminate.
  - rewrite _repr_S. apply raises_only_bind; [intros e H; discriminate |].
    intros _ _. destruct (t >=? m) eqn:E; [intros e H; discriminate |].
    apply (good_dispatch (raises_only (render_exn h)) (render_exn h)
             (fun _ => True)).
    + intros A x e H. discriminate.
    + intros A e He e' H. simpl in H. injection H as <-. exact He.
    + apply raises_only_bind.
    + intros msg. left. exists msg. reflexivity.
    + intros a l i m' _ _. apply IH.
    + intros o Ho. split; [exact I |].
      intros f e Hg _. right. exists obj, o, f. split; assumption.
    + exact I.
Qed.

(** ** The renderers use the callback one level down only *)

Lemma bind_ext {A B} (m : M A) (f g : A -> M B) :
  (forall x, f x = g x) -> bind m f = bind m g.
Proof.
  intros H. destruct m as [[x | e |] w]; simpl; try reflexivity.
  rewrite H. reflexivity.
Qed.

Section Extensionality.

Variable inv : Z -> Prop.
Variable h : heap.
Variables rec1 rec2 :
  addr -> option REPR_LINE_MODE -> string -> Z -> Z -> M string.
Variable _depth : Z.

Hypothesis rec_agree : forall a l i m,
  inv m -> _depth < m -> rec1 a l i m (_depth + 1) = rec2 a l i m (_depth + 1).

Lemma dict_values_ext i cap items indent m :
  inv m -> _depth < m ->
  dict_values rec1 i cap items indent m _depth
  = dict_values rec2 i cap items indent m _depth.
Proof.
  intros Hm Hd. revert i.
  induction items as [| [k v] rest IH]; intros i; simpl; [reflexivity |].
  rewrite rec_agree by assumption.
  destruct (i >=? cap); [reflexivity |].
  apply bind_ext. intros rv. rewrite IH. reflexivity.
Qed.

Lemma iterable_values_ext i cap lst indent m :
  inv m -> _depth < m ->
  iterable_values rec1 i cap lst indent m _depth
  = iterable_values rec2 i cap lst indent m _depth.
Proof.
  intros Hm Hd. revert i.
  induction lst as [| v rest IH]; intros i; simpl; [reflexivity |].
  rewrite rec_agree by assumption.
  destruct (i >=? cap); [reflexivity |].
  apply bind_ext. intros rv. rewrite IH. reflexivity.
Qed.

Lemma object_values_ext o fields field_lines indent m :
  inv m -> _depth < m ->
  object_values h rec1 o fields field_lines indent m _depth
  = object_values h rec2 o fields field_lines indent m _depth.
Proof.
  intros Hm Hd.
  induction fields as [| field rest IH]; simpl; [reflexivity |].
  apply bind_ext. intros value. rewrite IH.
  destruct value as [| a]; [reflexivity |].
  rewrite rec_agree by assumption. reflexivity.
Qed.

Lemma dispatch_ext obj lines indent m :
  (forall o, h obj = OKis o -> inv (kis_max_depth o)) ->
  inv m -> _depth < m ->
  dispatch h rec1 obj lines indent m _depth
  = dispatch h rec2 obj lines indent m _depth.
Proof.
  intros Ho Hm Hd. unfold dispatch.
  destruct (h obj) as [d | l | t | s | o | | r] eqn:E; try reflexivity.
  - unfold dict_repr. destruct (_depth >=? m); [reflexivity |].
    rewrite dict_values_ext by assumption. reflexivity.
  - unfold list_repr, _iterable_repr.
    destruct (tie_degenerate "[]"); [reflexivity |].
    destruct (_depth >=? m); [reflexivity |].
    rewrite iterable_values_ext by assumption. reflexivity.
  - unfold tuple_repr, _iterable_repr.
    destruct (tie_degenerate "()"); [reflexivity |].
    destruct (_depth >=? m); [reflexivity |].
    rewrite iterable_values_ext by assumption. reflexivity.
  - unfold set_repr, _iterable_repr.
    destruct (tie_degenerate "{}"); [reflexivity |].
    destruct (_depth >=? m); [reflexivity |].
    rewrite iterable_values_ext by assumption. reflexivity.
  - unfold kis___repr__, object_repr.
    destruct (_depth >=? kis_max_depth o) eqn:Ed; [reflexivity |].
    rewrite object_values_ext; [reflexivity | apply Ho; reflexivity | lia].
Qed.

End Extensionality.

(** Past the fuel that the depth bound asks for, more fuel changes
    nothing. *)
Lemma _repr_fuel_stable h B :
  max_depth_bounded h B ->
  forall fuel1 fuel2 obj lines indent max_depth _depth,
    max_depth <= B ->
    (Z.to_nat (B - _depth) < fuel1)%nat ->
    (Z.to_nat (B - _depth) < fuel2)%nat ->
    _repr fuel1 h obj lines indent max_depth _depth
    = _repr fuel2 h obj lines indent max_depth _depth.
Proof.
  intros HB. induction fuel1 as [| fuel1 IH];
    intros fuel2 obj lines indent m t Hm H1 H2; [lia |].
  destruct fuel2 as [| fuel2]; [lia |].
  rewrite !_repr_S. apply bind_ext. intros _.
  destruct (t >=? m) eqn:E; [reflexivity |].
  apply (dispatch_ext (fun m => m <= B)).
  - intros a l i m' Hm' Hd. apply IH; [exact Hm' | lia | lia].
  - intros o Ho. eapply HB; eassumption.
  - exact Hm.
  - lia.
Qed.

(** ** Truncation *)

Lemma append_assoc (a b c : string) : (a ++ b) ++ c = a ++ b ++ c.
Proof. induction a as [| x a IH]; simpl; [reflexivity | rewrite IH; reflexivity]. Qed.

Lemma iterable_values_firstn rec i cap lst indent m t values :
  Forall2 (renders_to rec indent m t) (firstn (Z.to_nat (cap - i)) lst)
    values ->
  result (iterable_values rec i cap lst indent m t) = Ret values.
Proof.
  revert i values. induction lst as [| x rest IH]; intros i values H.
  - rewrite firstn_nil in H. inversion H. reflexivity.
  - simpl. destruct (i >=? cap) eqn:E.
    + replace (Z.to_nat (cap - i)) with 0%nat in H by lia.
      inversion H. reflexivity.
    + replace (Z.to_nat (cap - i)) with (S (Z.to_nat (cap - (i + 1)))) in H
        by lia.
      simpl in H. inversion H as [| ? v ? vs Hx Hrest]; subst.
      rewrite result_bind, Hx, result_bind, (IH _ _ Hrest). reflexivity.
Qed.

Lemma dict_values_firstn rec i cap items indent m t values :
  Forall2 (entry_renders_to rec indent m t)
    (firstn (Z.to_nat (cap - i)) items) values ->
  result (dict_values rec i cap items indent m t) = Ret values.
Proof.
  revert i values. induction items as [| [k x] rest IH]; intros i values H.
  - rewrite firstn_nil in H. inversion H. reflexivity.
  - simpl. destruct (i >=? cap) eqn:E.
    + replace (Z.to_nat (cap - i)) with 0%nat in H by lia.
      inversion H. reflexivity.
    + replace (Z.to_nat (cap - i)) with (S (Z.to_nat (cap - (i + 1)))) in H
        by lia.
      simpl in H. inversion H as [| ? [k' v] ? vs [Hk Hx] Hrest]; subst.
      simpl in Hk, Hx. subst k'.
      rewrite result_bind, Hx, result_bind, (IH _ _ Hrest). reflexivity.
Qed.

Lemma iterable_write_marker open_tie close_tie mode indent values :
  exists pre marker post,
    ellipsis_marker indent marker
    /\ iterable_write open_tie close_tie mode indent values true
       = pre ++ marker ++ post
    /\ iterable_write open_tie close_tie mode indent values false
       = pre ++ post.
Proof.
  destruct mode; unfold iterable_write; simpl (String.eqb _ _); cbv iota.
  - exists (write_entries (write EmptyString open_tie) ", " 0 values),
      ", ...", close_tie.
    split; [left; reflexivity |]. unfold write at 1 2 5.
    rewrite append_assoc. split; reflexivity.
  - exists (write (write_entries_indented (write (write EmptyString open_tie) NL)
                     ("," ++ NL) indent 0 values) NL),
      (indent ++ "..." ++ NL), close_tie.
    split; [right; reflexivity |]. unfold write at 1 2 3 8.
    rewrite !append_assoc. split; reflexivity.
Qed.

Lemma dict_write_marker mode indent values :
  exists pre marker post,
    ellipsis_marker indent marker
    /\ dict_write mode indent values true = pre ++ marker ++ post
    /\ dict_write mode indent values false = pre ++ post.
Proof.
  exists (write_entries (write EmptyString "{") ", " 0 (map dict_entry values)),
    ", ...", "}".
  split; [left; reflexivity |].
  destruct mode; unfold dict_write; simpl (truthy _); cbv iota;
    unfold write at 1 2 5; rewrite append_assoc; split; reflexivity.
Qed.

Lemma firstn_list_len {A} (k : Z) (l : list A) :
  0 <= k ->
  (list_len l > k -> list_len (firstn (Z.to_nat k) l) = k)
  /\ (list_len l <= k -> firstn (Z.to_nat k) l = l).
Proof.
  intros Hk. unfold list_len. split; intros H.
  - rewrite length_firstn. lia.
  - apply firstn_all2. lia.
Qed.

Lemma Forall2_list_len {A B} (R : A -> B -> Prop) l l' :
  Forall2 R l l' -> list_len l' = list_len l.
Proof.
  intros H. unfold list_len. rewrite (Forall2_length H). reflexivity.
Qed.

(** C6, as amended.  With [ellipsis = k] and [k >= 1], a sequence, set
    or mapping of [n] entries whose first [min n k] entries render to
    [values] is written from exactly these: when [n > k] there are [k]
    of them and the output is that of the same entries without
    truncation with one ellipsis marker inserted; when [n <= k] all [n]
    entries are rendered and no marker is written. *)
Theorem C6_truncation :
  forall (rec : addr -> option REPR_LINE_MODE -> string -> Z -> Z -> M string)
         (k : Z) (lines : option REPR_LINE_MODE) (indent : string)
         (max_depth _depth : Z),
    1 <= k -> _depth < max_depth ->
    (forall (lst : list addr) (tie : string) (values : list string),
       tie_degenerate tie = false ->
       Forall2 (renders_to rec indent max_depth _depth)
         (firstn (Z.to_nat k) lst) values ->
       truncated_iterable rec k lines indent max_depth _depth lst tie values)
    /\ (forall (dct : list (key * addr)) (values : list (string * string)),
          Forall2 (entry_renders_to rec indent max_depth _depth)
            (firstn (Z.to_nat k) dct) values ->
          truncated_dict rec k lines indent max_depth _depth dct values).
Proof.
  intros rec k lines indent m t Hk Hd.
  assert (forall n, or_length (Some k) n = k) as Hor.
  { intros n. unfold or_length. replace (k =? 0) with false by lia.
    reflexivity. }
  split.
  - intros lst tie values Ht Hvals.
    pose proof (Forall2_list_len _ _ _ Hvals) as Hlen.
    destruct (firstn_list_len k lst ltac:(lia)) as [Hgt Hle].
    unfold truncated_iterable.
    exists (match lines with
            | None => iterable_lines values (list_len lst >? k)
            | Some l => l
            end).
    cbv zeta.
    assert (result (_iterable_repr rec lst tie lines indent (Some k) m t)
            = Ret (iterable_write (open_of tie) (close_of tie)
                     (match lines with
                      | None => iterable_lines values (list_len lst >? k)
                      | Some l => l
                      end) indent values (list_len lst >? k))) as Hres.
    { unfold _iterable_repr. rewrite Ht.
      replace (t >=? m) with false by lia.
      rewrite result_bind, Hor.
      rewrite (iterable_values_firstn rec 0 k lst indent m t values)
        by (rewrite Z.sub_0_r; exact Hvals).
      reflexivity. }
    split.
    + intros Hn. split; [rewrite Hlen; apply Hgt; exact Hn |].
      split.
      * rewrite Hres. replace (list_len lst >? k) with true by lia.
        reflexivity.
      * apply iterable_write_marker.
    + intros Hn. split; [apply Hle; exact Hn |].
      split; [rewrite Hlen, (Hle Hn); reflexivity |].
      rewrite Hres. replace (list_len lst >? k) with false by lia.
      reflexivity.
  - intros dct values Hvals.
    pose proof (Forall2_list_len _ _ _ Hvals) as Hlen.
    destruct (firstn_list_len k dct ltac:(lia)) as [Hgt Hle].
    unfold truncated_dict.
    exists (match lines with
            | None => dict_lines values (list_len dct >? k)
            | Some l => l
            end).
    cbv zeta.
    assert (result (dict_repr rec dct lines indent (Some k) m t)
            = Ret (dict_write
                     (match lines with
                      | None => dict_lines values (list_len dct >? k)
                      | Some l => l
                      end) indent values (list_len dct >? k))) as Hres.
    { unfold dict_repr.
      replace (t >=? m) with false by lia.
      rewrite result_bind, Hor.
      rewrite (dict_values_firstn rec 0 k dct indent m t values)
        by (rewrite Z.sub_0_r; exact Hvals).
      reflexivity. }
    split.
    + intros Hn. split; [rewrite Hlen; apply Hgt; exact Hn |].
      split.
      * rewrite Hres. replace (list_len dct >? k) with true by lia.
        reflexivity.
      * apply dict_write_marker.
    + intros Hn. split; [apply Hle; exact Hn |].
      split; [rewrite Hlen, (Hle Hn); reflexivity |].
      rewrite Hres. replace (list_len dct >? k) with false by lia.
      reflexivity.
Qed.

Lemma C6_truncation_witness :
  truncated_iterable (_repr 1 Inputs.six) 3 None default_indent
    default_max_depth 0 [1; 2; 3; 4; 5; 6]%nat "[]" ["1"; "2"; "3"]
  /\ truncated_dict (_repr 1 Inputs.seven) 3 None default_indent
       default_max_depth 0
       [(Inputs.str_key "a", 1); (Inputs.str_key "b", 2);
        (Inputs.str_key "c", 3); (Inputs.str_key "d", 4);
        (Inputs.str_key "e", 5); (Inputs.str_key "f", 6);
        (Inputs.str_key "g", 7)]%nat
       [("'a'", "1"); ("'b'", "2"); ("'c'", "3")].
Proof.
  split.
  - apply (proj1 (C6_truncation (_repr 1 Inputs.six) 3 None default_indent
                    default_max_depth 0 ltac:(lia) ltac:(reflexivity))).
    + reflexivity.
    + repeat constructor.
  - apply (proj2 (C6_truncation (_repr 1 Inputs.seven) 3 None default_indent
                    default_max_depth 0 ltac:(lia) ltac:(reflexivity))).
    repeat constructor.
Defined.

(** C6, as stated, fails at [k = 0]: [ellipsis or length] reads [0] as
    no limit, so [[1, 2, 3]] with [ellipsis = 0] keeps its three entries
    and gets no marker, where the claim asks for no entry and one
    marker. *)
Lemma C6_counterexample :
  0 <= 0
  /\ list_len [1; 2; 3]%nat > 0
  /\ result (iterable_values (_repr 1 Inputs.three) 0 (or_length (Some 0) 3)
               [1; 2; 3]%nat default_indent default_max_depth 0)
     = Ret ["1"; "2"; "3"]
  /\ result (list_repr (_repr 1 Inputs.three) [1; 2; 3]%nat None
               default_indent (Some 0) default_max_depth 0)
     = Ret "[1, 2, 3]"
  /\ (forall values,
        ~ truncated_iterable (_repr 1 Inputs.three) 0 None default_indent
            default_max_depth 0 [1; 2; 3]%nat "[]" values).
Proof.
  split; [lia |]. split; [reflexivity |]. split; [reflexivity |].
  split; [reflexivity |].
  intros values [mode [H _]].
  destruct (H ltac:(reflexivity)) as [Hlen [Hgot _]].
  destruct values as [| v values].
  - destruct mode; vm_compute in Hgot; discriminate.
  - unfold list_len in Hlen. simpl in Hlen. lia.
Qed.

(** ** Layout of sequences and sets *)

Lemma iterable_lines_single_iff values has_ellipsis :
  iterable_lines values has_ellipsis = single
  <-> list_len values <= 5
      /\ has_ellipsis = false
      /\ iterable_cost values - 1 <= SINGLE_LINE_MAX_LENGTH
      /\ existsb PyStr.has_newline values = false.
Proof.
  unfold iterable_lines.
  destruct ((list_len values <=? 5) && negb has_ellipsis
            && (iterable_cost values - 1 <=? SINGLE_LINE_MAX_LENGTH)
            && negb (existsb PyStr.has_newline values))%bool eqn:E.
  - rewrite !andb_true_iff, !negb_true_iff, !Z.leb_le in E.
    split; [intros _; tauto | reflexivity].
  - split; [discriminate |]. intros [H1 [H2 [H3 H4]]].
    rewrite <- Z.leb_le in H1, H3. rewrite H1, H2, H3, H4 in E.
    discriminate.
Qed.

Lemma dict_lines_single_iff values has_ellipsis :
  dict_lines values has_ellipsis = single
  <-> list_len values <= 5
      /\ has_ellipsis = false
      /\ dict_cost values - 1 <= SINGLE_LINE_MAX_LENGTH
      /\ existsb (fun kv => PyStr.has_newline (snd kv)) values = false.
Proof.
  unfold dict_lines.
  destruct ((list_len values <=? 5) && negb has_ellipsis
            && (dict_cost values - 1 <=? SINGLE_LINE_MAX_LENGTH)
            && negb (existsb (fun kv => PyStr.has_newline (snd kv)) values))%bool
    eqn:E.
  - rewrite !andb_true_iff, !negb_true_iff, !Z.leb_le in E.
    split; [intros _; tauto | reflexivity].
  - split; [discriminate |]. intros [H1 [H2 [H3 H4]]].
    rewrite <- Z.leb_le in H1, H3. rewrite H1, H2, H3, H4 in E.
    discriminate.
Qed.

(** With no [lines] given, a sequence or set is written in the mode
    that [iterable_lines] computes from the rendered entries. *)
Lemma _iterable_repr_default_layout rec lst tie indent ellipsis m t values :
  tie_degenerate tie = false -> t < m ->
  Forall2 (renders_to rec indent m t)
    (firstn (Z.to_nat (or_length ellipsis (list_len lst))) lst) values ->
  result (_iterable_repr rec lst tie None indent ellipsis m t)
  = Ret (iterable_write (open_of tie) (close_of tie)
           (iterable_lines values
              (list_len lst >? or_length ellipsis (list_len lst)))
           indent values
           (list_len lst >? or_length ellipsis (list_len lst))).
Proof.
  intros Ht Hd Hvals. unfold _iterable_repr. rewrite Ht.
  replace (t >=? m) with false by lia.
  rewrite result_bind.
  rewrite (iterable_values_firstn rec 0 _ lst indent m t values)
    by (rewrite Z.sub_0_r; exact Hvals).
  reflexivity.
Qed.

(** A sequence or set over budget, or with an entry that holds a line
    break, is written as a block. *)
Lemma _iterable_repr_block rec lst tie indent ellipsis m t values :
  tie_degenerate tie = false -> t < m ->
  Forall2 (renders_to rec indent m t)
    (firstn (Z.to_nat (or_length ellipsis (list_len lst))) lst) values ->
  list_len values > 5
  \/ iterable_cost values - 1 > SINGLE_LINE_MAX_LENGTH
  \/ existsb PyStr.has_newline values = true ->
  result (_iterable_repr rec lst tie None indent ellipsis m t)
  = Ret (iterable_write (open_of tie) (close_of tie) multiple indent values
           (list_len lst >? or_length ellipsis (list_len lst))).
Proof.
  intros Ht Hd Hvals Hover.
  rewrite (_iterable_repr_default_layout rec lst tie indent ellipsis m t
             values Ht Hd Hvals).
  destruct (iterable_lines values
              (list_len lst >? or_length ellipsis (list_len lst))) eqn:E;
    [| reflexivity].
  apply iterable_lines_single_iff in E. destruct E as [H1 [_ [H3 H4]]].
  destruct Hover as [H | [H | H]]; [lia | lia | congruence].
Qed.

(** ** Layout of records *)

Lemma object_cost_unrendered acc values field :
  In (field, Unrendered) values ->
  result (object_cost acc values)
  = Raise (TypeError "object of type 'UnboundedType' has no len()").
Proof.
  revert acc. induction values as [| [k v] rest IH]; intros acc Hin.
  - destruct Hin.
  - simpl. rewrite result_bind. destruct v as [s |]; [| reflexivity].
    simpl. apply IH. destruct Hin as [H | H]; [discriminate | exact H].
Qed.

(** The layout test of a record of at most five fields, one of them
    the sentinel, raises. *)
Lemma object_lines_unrendered values field :
  list_len values <= 5 ->
  In (field, Unrendered) values ->
  result (object_lines values)
  = Raise (TypeError "object of type 'UnboundedType' has no len()").
Proof.
  intros Hlen Hin. unfold object_lines.
  replace (list_len values <=? 5) with true by lia. simpl negb. cbv iota.
  rewrite result_bind, (object_cost_unrendered 0 values field Hin).
  reflexivity.
Qed.

(** A record of at most five fields, one of them missing, rendered with
    no [lines] given, ends with that [TypeError]. *)
Lemma object_repr_unrendered h rec o fields field_lines indent m t values
  field :
  t < m ->
  result (object_values h rec o
            (match fields with None => public_dir o | Some fs => fs end)
            field_lines indent m t) = Ret values ->
  list_len values <= 5 ->
  In (field, Unrendered) values ->
  result (object_repr h rec o fields None field_lines indent m t)
  = Raise (TypeError "object of type 'UnboundedType' has no len()").
Proof.
  intros Hd Hvals Hlen Hin. unfold object_repr.
  replace (t >=? m) with false by lia.
  rewrite result_bind, Hvals, result_bind.
  rewrite (object_lines_unrendered values field Hlen Hin). reflexivity.
Qed.

(** ** Depth placeholders *)

(** C3, as amended.  At [_depth >= max_depth], [_repr] returns ["..."]
    for every object, whatever its shape, without reading the heap and
    without a further call; the placeholders of the shapes are returned
    by the shape's own renderer when it is entered at
    [_depth >= max_depth]: ["{:...}"] for a mapping, the bracket pair
    around ["..."] for a sequence or set, [Name(...)] for a record. *)
Theorem C3_depth_placeholders :
  forall (h : heap)
         (rec : addr -> option REPR_LINE_MODE -> string -> Z -> Z -> M string)
         (fuel : nat) (obj : addr) (dct : list (key * addr))
         (lst : list addr) (tie : string) (o : kis_object)
         (fields : option (list string)) (lines : option REPR_LINE_MODE)
         (field_lines : option (list (string * REPR_LINE_MODE)))
         (indent : string) (ellipsis : option Z) (max_depth _depth : Z),
    _depth >= max_depth ->
    _repr (S fuel) h obj lines indent max_depth _depth
    = (Ret "...", [mkCall obj _depth])
    /\ dict_repr rec dct lines indent ellipsis max_depth _depth
       = ret "{:...}"
    /\ (tie_degenerate tie = false ->
        _iterable_repr rec lst tie lines indent ellipsis max_depth _depth
        = ret (open_of tie ++ "..." ++ close_of tie))
    /\ list_repr rec lst lines indent ellipsis max_depth _depth
       = ret "[...]"
    /\ tuple_repr rec lst lines indent ellipsis max_depth _depth
       = ret "(...)"
    /\ set_repr rec lst lines indent ellipsis max_depth _depth
       = ret "{...}"
    /\ object_repr h rec o fields lines field_lines indent max_depth _depth
       = ret (class_name o ++ "(...)").
Proof.
  intros h rec fuel obj dct lst tie o fields lines field_lines indent
    ellipsis m t Hd.
  assert ((t >=? m) = true) as E by lia.
  repeat split.
  - rewrite _repr_S, E. reflexivity.
  - unfold dict_repr. rewrite E. reflexivity.
  - intros Ht. unfold _iterable_repr. rewrite Ht, E. reflexivity.
  - unfold list_repr, _iterable_repr. rewrite E. reflexivity.
  - unfold tuple_repr, _iterable_repr. rewrite E. reflexivity.
  - unfold set_repr, _iterable_repr. rewrite E. reflexivity.
  - unfold object_repr. rewrite E. reflexivity.
Qed.

Lemma C3_depth_placeholders_witness :
  _repr 1 Inputs.nested8 7%nat None default_indent default_max_depth 7
  = (Ret "...", [mkCall 7%nat 7])
  /\ list_repr (_repr 1 Inputs.nested8) [8%nat] None default_indent None
       default_max_depth 7
     = ret "[...]".
Proof.
  pose proof (C3_depth_placeholders Inputs.nested8 (_repr 1 Inputs.nested8)
                0 7%nat [] [8%nat] "[]" Inputs.Node None None None
                default_indent None default_max_depth 7) as H.
  assert (7 >= default_max_depth) as Hd by (unfold default_max_depth; lia).
  destruct (H Hd) as [H1 [_ [_ [H4 _]]]].
  split; [exact H1 | exact H4].
Defined.

(** C3, as stated, fails: of eight lists inside each other rendered with
    [max_depth = 7], the eighth is reached by [_repr] at depth 7 and
    shown as ["..."], not as the sequence placeholder ["[...]"]; the
    output has seven bracket pairs. *)
Lemma C3_counterexample :
  Inputs.nested8 7%nat = OList [8%nat]
  /\ 7 >= default_max_depth
  /\ result (_repr 9 Inputs.nested8 7%nat None default_indent
               default_max_depth 7) = Ret "..."
  /\ result (_repr 9 Inputs.nested8 7%nat None default_indent
               default_max_depth 7) <> Ret "[...]"
  /\ result (_repr 9 Inputs.nested8 0%nat None default_indent
               default_max_depth 0) = Ret "[[[[[[[...]]]]]]]".
Proof.
  split; [reflexivity |]. split; [unfold default_max_depth; lia |].
  split; [reflexivity |]. split; [| reflexivity].
  vm_compute. discriminate.
Qed.

(** ** Concrete scenarios *)

(** C5, as stated, fails: the truncated sequence is not written on one
    line. *)
Lemma C5_counterexample :
  result (list_repr (_repr 1 Inputs.six) [1; 2; 3; 4; 5; 6]%nat None
            default_indent (Some 3) default_max_depth 0)
  <> Ret "[1, 2, 3, ...]".
Proof. vm_compute. discriminate. Qed.

(** C5, as amended.  [list_repr([1, 2, 3, 4, 5, 6], ellipsis=3)] with
    the other arguments at their defaults is the block of the three
    first entries, one per line, followed by the ellipsis line; the one
    line ["[1, 2, 3, ...]"] is what [lines="single"] gives. *)
Theorem C5_truncated_sequence_is_a_block :
  result (list_repr (_repr 1 Inputs.six) [1; 2; 3; 4; 5; 6]%nat None
            default_indent (Some 3) default_max_depth 0)
  = Ret ("[" ++ NL ++ "    1," ++ NL ++ "    2," ++ NL ++ "    3" ++ NL
         ++ "    ..." ++ NL ++ "]")
  /\ result (list_repr (_repr 1 Inputs.six) [1; 2; 3; 4; 5; 6]%nat
               (Some single) default_indent (Some 3) default_max_depth 0)
     = Ret "[1, 2, 3, ...]".
Proof. split; reflexivity. Qed.

(** The branch of [dict_write] does not depend on [lines]: both modes
    are non-empty strings. *)
Lemma dict_write_one_line mode indent values has_ellipsis :
  dict_write mode indent values has_ellipsis
  = dict_write single indent values has_ellipsis.
Proof. destruct mode; reflexivity. Qed.

(** C1 at its own example: the mapping of seven entries, default
    arguments.  [dict_lines] answers [multiple], and [dict_repr] still
    writes the seven entries on one line. *)
Theorem C1_mapping_of_seven_on_one_line :
  dict_lines [("'a'", "1"); ("'b'", "2"); ("'c'", "3"); ("'d'", "4");
              ("'e'", "5"); ("'f'", "6"); ("'g'", "7")] false = multiple
  /\ result (_repr 2 Inputs.seven 0%nat None default_indent
               default_max_depth 0)
     = Ret ("{" ++ quoted "'a'" ++ ": 1, " ++ quoted "'b'" ++ ": 2, "
            ++ quoted "'c'" ++ ": 3, " ++ quoted "'d'" ++ ": 4, "
            ++ quoted "'e'" ++ ": 5, " ++ quoted "'f'" ++ ": 6, "
            ++ quoted "'g'" ++ ": 7}").
Proof. split; reflexivity. Qed.

(** C2 at the record [Order] without [price]: the field is replaced by
    the sentinel, and the layout test then takes [len] of the sentinel
    object, which raises [TypeError].  With [lines] given the test is
    skipped and the token is printed. *)
Theorem C2_unbounded_field_raises :
  result (field_value Inputs.order Inputs.Order "price") = Ret UNBOUNDED
  /\ result (_repr 2 Inputs.order 0%nat None default_indent
               default_max_depth 0)
     = Raise (TypeError "object of type 'UnboundedType' has no len()")
  /\ result (object_repr Inputs.order (_repr 1 Inputs.order) Inputs.Order
               (Some ["symbol"; "price"]) (Some single) None default_indent
               default_max_depth 0)
     = Ret "Order(symbol='AAPL', price=Unbounded)".
Proof. repeat split; reflexivity. Qed.

(** C4 at [{"k": [1, 2, 3, 4, 5, 6]}]: the child is a block, [dict_lines]
    answers [multiple], and the mapping is written in the one-line
    format around the block. *)
Theorem C4_mapping_with_block_child_on_one_line :
  result (_repr 2 Inputs.dict_of_six 1%nat None default_indent
            default_max_depth 1)
  = Ret ("[" ++ NL ++ "    1," ++ NL ++ "    2," ++ NL ++ "    3," ++ NL
         ++ "    4," ++ NL ++ "    5," ++ NL ++ "    6" ++ NL ++ "]")
  /\ PyStr.has_newline
       ("[" ++ NL ++ "    1," ++ NL ++ "    2," ++ NL ++ "    3," ++ NL
        ++ "    4," ++ NL ++ "    5," ++ NL ++ "    6" ++ NL ++ "]") = true
  /\ dict_lines
       [("'k'", "[" ++ NL ++ "    1," ++ NL ++ "    2," ++ NL ++ "    3,"
                ++ NL ++ "    4," ++ NL ++ "    5," ++ NL ++ "    6" ++ NL
                ++ "]")] false = multiple
  /\ result (_repr 3 Inputs.dict_of_six 0%nat None default_indent
               default_max_depth 0)
     = Ret ("{" ++ quoted "'k'" ++ ": "
            ++ "[" ++ NL ++ "    1," ++ NL ++ "    2," ++ NL ++ "    3," ++ NL
            ++ "    4," ++ NL ++ "    5," ++ NL ++ "    6" ++ NL ++ "]"
            ++ "}").
Proof. repeat split; reflexivity. Qed.

Lemma length_append (a b : string) :
  String.length (a ++ b) = (String.length a + String.length b)%nat.
Proof.
  induction a as [| x a IH]; simpl; [reflexivity | rewrite IH; reflexivity].
Qed.

Lemma escape_char_length q c : (1 <= String.length (PyStr.escape_char q c))%nat.
Proof.
  unfold PyStr.escape_char.
  repeat match goal with
         | |- context [if ?b then _ else _] => destruct b
         end; simpl; lia.
Qed.

Lemma escape_length q s :
  (String.length s <= String.length (PyStr.escape q s))%nat.
Proof.
  induction s as [| c s IH]; simpl; [lia |].
  rewrite length_append. pose proof (escape_char_length q c). lia.
Qed.

(** [repr] of a string is longer than the string: the text of a key
    written by [dict_entry] is never the rendered key itself. *)
Lemma dict_entry_key_requoted k v :
  dict_entry (k, v) = PyStr.repr k ++ ": " ++ v /\ PyStr.repr k <> k.
Proof.
  split; [reflexivity |]. intros H.
  assert (String.length (PyStr.repr k) = String.length k) as Hlen
    by (rewrite H; reflexivity).
  unfold PyStr.repr in Hlen. simpl in Hlen.
  rewrite length_append in Hlen. simpl in Hlen.
  pose proof (escape_length (PyStr.repr_quote k) k). lia.
Qed.

(** C7 at [{"a": 1}]: [repr(k)] is ['a'], and the entry is written with
    [repr] applied once more, as ["'a'": 1]. *)
Theorem C7_key_is_quoted_twice :
  Inputs.str_key "a" = "'a'"
  /\ dict_entry (Inputs.str_key "a", "1") = quoted "'a'" ++ ": 1"
  /\ result (_repr 2 Inputs.one_entry 0%nat None default_indent
               default_max_depth 0)
     = Ret ("{" ++ quoted "'a'" ++ ": 1}")
  /\ result (_repr 2 Inputs.one_entry 0%nat None default_indent
               default_max_depth 0)
     <> Ret "{'a': 1}".
Proof.
  repeat split; try reflexivity. vm_compute. discriminate.
Qed.

(** ** Depth bound and termination *)

(** C8, as amended.  The inputs are the heaps of this file: mappings,
    sequences, sets, records and leaves, shared and self-referential
    structures included, where the host [repr] of a leaf and of a
    mapping key does not call the renderer again and an attribute
    look-up returns or raises.  If the record
    classes declare a [max_depth] of at most [B] and [0 <= d <= B],
    then the call [_repr(obj, max_depth=d)] makes no [_repr] call at a
    depth greater than [B], whatever the recursion limit; and whenever
    the recursion limit admits [B + 1] nested [_repr] calls
    ([fuel > B]), the call returns a string or raises an exception,
    with the same outcome for every such limit.  A record is
    rendered under the [max_depth] of its own class, so the bound is
    [d] itself when no class declares more than [d]. *)
Theorem C8_depth_bound :
  forall (h : heap) (obj : addr) (lines : option REPR_LINE_MODE)
         (indent : string) (d B : Z),
    0 <= d -> d <= B -> max_depth_bounded h B ->
    (exists r, r <> OutOfFuel
               /\ forall fuel, (Z.to_nat B < fuel)%nat ->
                    result (_repr fuel h obj lines indent d 0) = r)
    /\ (forall fuel,
          Forall (fun c => call_depth c <= B)
            (calls (_repr fuel h obj lines indent d 0))).
Proof.
  intros h obj lines indent d B Hd HdB HB. split.
  - exists (result (_repr (S (Z.to_nat B)) h obj lines indent d 0)). split.
    + apply (_repr_returns_or_raises h B HB); [exact HdB |].
      rewrite Z.sub_0_r. lia.
    + intros fuel Hf. f_equal.
      apply (_repr_fuel_stable h B HB); [exact HdB | |];
        rewrite Z.sub_0_r; lia.
  - intros fuel. apply (_repr_calls_within h B HB); lia.
Qed.

Lemma cycle_bounded : max_depth_bounded Inputs.cycle 7.
Proof.
  intros a o H. unfold Inputs.cycle, Inputs.heap_of in H.
  destruct a as [| [| [| a]]]; simpl in H; try discriminate.
  injection H as <-. simpl. unfold default_max_depth. lia.
Qed.

Lemma C8_depth_bound_witness :
  (exists r, r <> OutOfFuel
             /\ forall fuel, (Z.to_nat 7 < fuel)%nat ->
                  result (_repr fuel Inputs.cycle 0%nat None default_indent 2 0)
                  = r)
  /\ (forall fuel,
        Forall (fun c => call_depth c <= 7)
          (calls (_repr fuel Inputs.cycle 0%nat None default_indent 2 0))).
Proof.
  apply (C8_depth_bound Inputs.cycle 0%nat None default_indent 2 7).
  - lia.
  - lia.
  - exact cycle_bounded.
Defined.

(** C8, as stated, fails: rendered with [max_depth = 2], the list that
    holds a [Node] whose field is that list makes [_repr] calls at
    depths 3 to 7, the [max_depth] of [Node] being 7. *)
Lemma C8_counterexample :
  0 <= 2
  /\ Exists (fun c => call_depth c > 2)
       (calls (_repr 9 Inputs.cycle 0%nat None default_indent 2 0))
  /\ ~ Forall (fun c => call_depth c <= 2)
       (calls (_repr 9 Inputs.cycle 0%nat None default_indent 2 0)).
Proof.
  assert (In (mkCall 1%nat 3)
            (calls (_repr 9 Inputs.cycle 0%nat None default_indent 2 0)))
    as Hin by (vm_compute; tauto).
  split; [lia |]. split.
  - apply Exists_exists. exists (mkCall 1%nat 3).
    split; [exact Hin | simpl; lia].
  - intros H. rewrite Forall_forall in H. specialize (H _ Hin).
    simpl in H. lia.
Qed.

(** ** The bracket pair *)

Lemma tie_degenerate_spec tie :
  tie_degenerate tie = true
  <-> String.length tie = 0%nat \/ Nat.Odd (String.length tie).
Proof.
  unfold tie_degenerate, PyStr.len.
  rewrite orb_true_iff, negb_true_iff, Z.eqb_eq, Z.eqb_neq.
  split.
  - intros [H | H]; [left; lia |]. right.
    destruct (Nat.Even_or_Odd (String.length tie)) as [[k Hk] | Ho];
      [| exact Ho].
    exfalso. apply H. rewrite Hk. rewrite Nat2Z.inj_mul.
    rewrite Z.mul_comm. apply Z.mod_mul. lia.
  - intros [H | [k Hk]]; [left; lia |]. right.
    rewrite Hk. rewrite Nat2Z.inj_add, Nat2Z.inj_mul. simpl (Z.of_nat 2).
    simpl (Z.of_nat 1).
    rewrite Z.add_comm, Z.mul_comm, Z.mod_add by lia.
    discriminate.
Qed.

(** C9.  A bracket pair of zero or odd length makes [_iterable_repr]
    raise [ValueError("tie must be even length")] on entry: before the
    depth test, whatever the elements, and without a call to [_repr].
    With a bracket pair of even, non-zero length a render call never
    ends with that error, unless an attribute of a record raises it. *)
Theorem C9_tie_check :
  forall (h : heap) (fuel : nat)
         (rec : addr -> option REPR_LINE_MODE -> string -> Z -> Z -> M string)
         (lst : list addr) (tie : string) (lines : option REPR_LINE_MODE)
         (indent : string) (ellipsis : option Z) (max_depth _depth : Z),
    (tie_degenerate tie = true ->
     _iterable_repr rec lst tie lines indent ellipsis max_depth _depth
     = raise (ValueError tie_message))
    /\ (tie_degenerate tie = false ->
        (forall a o f, h a = OKis o ->
           getattr o f <> Raises (ValueError tie_message)) ->
        result (_iterable_repr (_repr fuel h) lst tie lines indent ellipsis
                  max_depth _depth)
        <> Raise (ValueError tie_message)).
Proof.
  intros h fuel rec lst tie lines indent ellipsis m t. split.
  - intros Ht. unfold _iterable_repr. rewrite Ht. reflexivity.
  - intros Ht Hacc Hr.
    assert (raises_only (render_exn h) _
              (_iterable_repr (_repr fuel h) lst tie lines indent ellipsis
                 m t)) as Hgood.
    { apply (good__iterable_repr (raises_only (render_exn h))
               (fun _ => True)).
      - intros A x e H. discriminate.
      - apply raises_only_bind.
      - intros a l i m' _ _. apply _repr_raises_only.
      - exact Ht.
      - exact I. }
    destruct (Hgood _ Hr) as [[msg Hmsg] | [a [o [f [Ho Hf]]]]].
    + discriminate.
    + exact (Hacc a o f Ho Hf).
Qed.

Lemma C9_tie_check_witness :
  _iterable_repr (_repr 3 Inputs.six) [1; 2; 3]%nat "[" None default_indent
    None default_max_depth 0
  = raise (ValueError tie_message)
  /\ result (_iterable_repr (_repr 3 Inputs.six) [1; 2; 3]%nat "<>" None
               default_indent None default_max_depth 0)
     <> Raise (ValueError tie_message).
Proof.
  split.
  - apply (proj1 (C9_tie_check Inputs.six 3 (_repr 3 Inputs.six)
                    [1; 2; 3]%nat "[" None default_indent None
                    default_max_depth 0)).
    reflexivity.
  - apply (proj2 (C9_tie_check Inputs.six 3 (_repr 3 Inputs.six)
                    [1; 2; 3]%nat "<>" None default_indent None
                    default_max_depth 0)).
    + reflexivity.
    + intros a o f Ho. unfold Inputs.six, Inputs.heap_of in Ho.
      do 8 (destruct a as [| a]; [discriminate |]).
      destruct a; discriminate.
Defined.

(** ** Field lookup in a record *)

Lemma object_values_app h rec o pre post field_lines indent m t :
  result (object_values h rec o (pre ++ post) field_lines indent m t)
  = match result (object_values h rec o pre field_lines indent m t) with
    | Ret vs =>
        match result (object_values h rec o post field_lines indent m t) with
        | Ret vs' => Ret (vs ++ vs')%list
        | Raise e => Raise e
        | OutOfFuel => OutOfFuel
        end
    | Raise e => Raise e
    | OutOfFuel => OutOfFuel
    end.
Proof.
  induction pre as [| field rest IH]; simpl.
  - destruct (result (object_values h rec o post field_lines indent m t));
      reflexivity.
  - rewrite !result_bind.
    destruct (result (field_value h o field)) as [value | e |];
      [| reflexivity | reflexivity].
    rewrite !result_bind.
    destruct (result match value with
                     | UNBOUNDED => ret Unrendered
                     | Ref a =>
                         s <- rec a (field_mode field_lines field) indent m
                                (t + 1) ;;
                         ret (Text s)
                     end) as [rv | e |]; [| reflexivity | reflexivity].
    rewrite !result_bind, IH.
    destruct (result (object_values h rec o rest field_lines indent m t))
      as [vs | e |]; [| reflexivity | reflexivity].
    destruct (result (object_values h rec o post field_lines indent m t))
      as [vs' | e |]; reflexivity.
Qed.

Lemma object_values_cons h rec o field rest field_lines indent m t :
  object_values h rec o (field :: rest) field_lines indent m t
  = (value <- field_value h o field ;;
     rv <- match value with
           | UNBOUNDED => ret Unrendered
           | Ref a =>
               s <- rec a (field_mode field_lines field) indent m (t + 1) ;;
               ret (Text s)
           end ;;
     values <- object_values h rec o rest field_lines indent m t ;;
     ret ((field, rv) :: values)).
Proof. reflexivity. Qed.

Lemma field_value_AttributeError h o field :
  getattr o field = Raises AttributeError ->
  field_value h o field = ret UNBOUNDED.
Proof. intros H. unfold field_value. rewrite H. reflexivity. Qed.

Lemma is_AttributeError_false e :
  e <> AttributeError -> is_AttributeError e = false.
Proof. destruct e; [congruence | reflexivity ..]. Qed.

Lemma object_values_field h rec o pre field post field_lines indent m t vs
  value rv vs' :
  result (object_values h rec o pre field_lines indent m t) = Ret vs ->
  result (field_value h o field) = Ret value ->
  result match value with
         | UNBOUNDED => ret Unrendered
         | Ref a =>
             s <- rec a (field_mode field_lines field) indent m (t + 1) ;;
             ret (Text s)
         end = Ret rv ->
  result (object_values h rec o post field_lines indent m t) = Ret vs' ->
  result (object_values h rec o (pre ++ field :: post) field_lines indent m t)
  = Ret (vs ++ (field, rv) :: vs')%list.
Proof.
  intros Hpre Hvalue Hrv Hpost.
  rewrite object_values_app, Hpre, object_values_cons.
  rewrite result_bind, Hvalue, result_bind, Hrv, result_bind, Hpost.
  reflexivity.
Qed.

(** C10, as amended.  A field becomes the [UNBOUNDED] sentinel exactly
    when [getattr(obj, field)] raises [AttributeError] or returns the
    [UNBOUNDED] object itself; its entry of [values] is then the
    sentinel, not a rendered text.  Any other attribute that is found
    is rendered by [_repr].  An exception other than [AttributeError]
    ends [object_repr], and the [_repr] call that dispatched to the
    record, with that exception, once the fields before it have been
    rendered. *)
Theorem C10_sentinel_exactly_when :
  forall (h : heap)
         (rec : addr -> option REPR_LINE_MODE -> string -> Z -> Z -> M string)
         (o : kis_object) (pre post : list string) (field : string)
         (lines : option REPR_LINE_MODE)
         (field_lines : option (list (string * REPR_LINE_MODE)))
         (indent : string) (max_depth _depth : Z)
         (vs : list (string * rendered)),
    _depth < max_depth ->
    result (object_values h rec o pre field_lines indent max_depth _depth)
    = Ret vs ->
    (result (field_value h o field) = Ret UNBOUNDED
     <-> getattr o field = Raises AttributeError
         \/ exists a, getattr o field = Found a /\ h a = OUnbounded)
    /\ (result (field_value h o field) = Ret UNBOUNDED ->
        forall vs',
          result (object_values h rec o post field_lines indent max_depth
                    _depth) = Ret vs' ->
          result (object_values h rec o (pre ++ field :: post) field_lines
                    indent max_depth _depth)
          = Ret (vs ++ (field, Unrendered) :: vs')%list)
    /\ (forall a,
          getattr o field = Found a -> h a <> OUnbounded ->
          result (field_value h o field) = Ret (Ref a)
          /\ forall s vs',
               result (rec a (field_mode field_lines field) indent max_depth
                         (_depth + 1)) = Ret s ->
               result (object_values h rec o post field_lines indent
                         max_depth _depth) = Ret vs' ->
               result (object_values h rec o (pre ++ field :: post)
                         field_lines indent max_depth _depth)
               = Ret (vs ++ (field, Text s) :: vs')%list)
    /\ (forall e,
          getattr o field = Raises e -> e <> AttributeError ->
          result (field_value h o field) = Raise e
          /\ result (object_repr h rec o (Some (pre ++ field :: post)%list)
                       lines field_lines indent max_depth _depth) = Raise e
          /\ forall fuel a l i m,
               rec = _repr fuel h -> h a = OKis o ->
               kis_fields o = (pre ++ field :: post)%list ->
               kis_lines o = lines -> kis_field_lines o = field_lines ->
               kis_indent o = indent -> kis_max_depth o = max_depth ->
               _depth < m ->
               result (_repr (S fuel) h a l i m _depth) = Raise e).
Proof.
  intros h rec o pre post field lines field_lines indent m t vs Hd Hpre.
  split; [| split; [| split]].
  - unfold field_value. destruct (getattr o field) as [a | e] eqn:Hget.
    + destruct (h a) eqn:Ha; cbn [result ret fst]; split; intros H.
      all: try discriminate H.
      all: try (right; exists a; split; [reflexivity | exact Ha]).
      all: try reflexivity.
      all: destruct H as [H | [a' [H1 H2]]];
        [discriminate H | injection H1 as <-; congruence].
    + destruct e; cbn [is_AttributeError result ret raise fst]; split;
        intros H.
      all: try discriminate H.
      all: try (left; reflexivity).
      all: try reflexivity.
      all: destruct H as [H | [a' [H1 H2]]]; discriminate.
  - intros Hvalue vs' Hpost.
    apply (object_values_field h rec o pre field post field_lines indent m t
             vs UNBOUNDED Unrendered vs' Hpre Hvalue eq_refl Hpost).
  - intros a Hget Ha.
    assert (result (field_value h o field) = Ret (Ref a)) as Hvalue.
    { unfold field_value. rewrite Hget.
      destruct (h a); try reflexivity. congruence. }
    split; [exact Hvalue |].
    intros s vs' Hs Hpost.
    apply (object_values_field h rec o pre field post field_lines indent m t
             vs (Ref a) (Text s) vs' Hpre Hvalue); [| exact Hpost].
    rewrite result_bind, Hs. reflexivity.
  - intros e Hget Hne.
    assert (result (field_value h o field) = Raise e) as Hvalue.
    { unfold field_value.
      rewrite Hget, (is_AttributeError_false e Hne). reflexivity. }
    assert (result (object_repr h rec o (Some (pre ++ field :: post)%list)
                      lines field_lines indent m t) = Raise e) as Hobj.
    { unfold object_repr. replace (t >=? m) with false by lia.
      rewrite result_bind, object_values_app, Hpre, object_values_cons.
      rewrite result_bind, Hvalue. reflexivity. }
    split; [exact Hvalue |]. split; [exact Hobj |].
    intros fuel a l i m' -> Ha Hfs Hl Hfl Hi Hm Hd'.
    rewrite _repr_S, result_bind. simpl.
    replace (t >=? m') with false by lia.
    unfold dispatch. rewrite Ha. unfold kis___repr__.
    rewrite Hfs, Hl, Hfl, Hi, Hm.
    destruct (pre ++ field :: post)%list eqn:E.
    + destruct pre; discriminate.
    + exact Hobj.
Qed.

Lemma C10_sentinel_exactly_when_witness :
  (result (field_value Inputs.broken_order Inputs.BrokenOrder "price")
   = Ret UNBOUNDED
   <-> getattr Inputs.BrokenOrder "price" = Raises AttributeError
       \/ exists a, getattr Inputs.BrokenOrder "price" = Found a
                    /\ Inputs.broken_order a = OUnbounded)
  /\ result (field_value Inputs.broken_order Inputs.BrokenOrder "symbol")
     = Ret (Ref 1%nat)
  /\ result (_repr 2 Inputs.broken_order 0%nat None default_indent
               default_max_depth 0)
     = Raise (OtherError "KeyError").
Proof.
  pose proof (C10_sentinel_exactly_when Inputs.broken_order
                (_repr 1 Inputs.broken_order) Inputs.BrokenOrder
                ["symbol"] [] "price" None None
                default_indent default_max_depth 0
                [("symbol", Text "'AAPL'")]
                eq_refl eq_refl) as [H1 [_ [_ H4]]].
  pose proof (C10_sentinel_exactly_when Inputs.broken_order
                (_repr 1 Inputs.broken_order) Inputs.BrokenOrder
                [] ["price"] "symbol" None None
                default_indent default_max_depth 0 []
                eq_refl eq_refl) as [_ [_ [H3 _]]].
  split; [exact H1 |]. split.
  - apply (H3 1%nat eq_refl). discriminate.
  - assert (OtherError "KeyError" <> AttributeError) as Hne by discriminate.
    destruct (H4 (OtherError "KeyError") eq_refl Hne) as [_ [_ H]].
    apply (H 1%nat 0%nat None default_indent default_max_depth);
      reflexivity.
Defined.

(** C10, as stated, fails: the attribute [price] of [Holding] is found,
    no exception is raised, and the field is the sentinel all the same,
    because the attribute holds the [UNBOUNDED] object. *)
Lemma C10_counterexample :
  getattr Inputs.Holding "price" = Found 1%nat
  /\ Inputs.holding 1%nat = OUnbounded
  /\ getattr Inputs.Holding "price" <> Raises AttributeError
  /\ result (field_value Inputs.holding Inputs.Holding "price")
     = Ret UNBOUNDED
  /\ ~ (result (field_value Inputs.holding Inputs.Holding "price")
        = Ret UNBOUNDED
        <-> getattr Inputs.Holding "price" = Raises AttributeError).
Proof.
  split; [reflexivity |]. split; [reflexivity |].
  split; [discriminate |]. split; [reflexivity |].
  intros [H _]. specialize (H eq_refl). discriminate H.
Qed.

(** * Further properties of the renderers *)

(** ** Strings *)

Lemma append_empty_r (s : string) : s ++ EmptyString = s.
Proof. induction s as [| c s IH]; simpl; [reflexivity | rewrite IH; reflexivity]. Qed.

Lemma contains_append c (a b : string) :
  PyStr.contains c (a ++ b) = (PyStr.contains c a || PyStr.contains c b)%bool.
Proof.
  induction a as [| x a IH]; simpl; [reflexivity |].
  destruct (Ascii.eqb x c); [reflexivity | exact IH].
Qed.

Lemma substring_whole (s : string) : substring 0 (String.length s) s = s.
Proof. induction s as [| c s IH]; simpl; [reflexivity | rewrite IH; reflexivity]. Qed.

Lemma substring_split (s : string) (n : nat) :
  (n <= String.length s)%nat ->
  substring 0 n s ++ substring n (String.length s - n) s = s.
Proof.
  revert n. induction s as [| c s IH]; intros n Hn.
  - destruct n; reflexivity.
  - destruct n as [| n].
    + simpl. rewrite substring_whole. reflexivity.
    + simpl in Hn. simpl. rewrite IH by lia. reflexivity.
Qed.

Lemma substring_prefix_length (s : string) (n : nat) :
  (n <= String.length s)%nat -> String.length (substring 0 n s) = n.
Proof.
  revert n. induction s as [| c s IH]; intros n Hn.
  - destruct n; [reflexivity | simpl in Hn; lia].
  - destruct n as [| n]; [reflexivity |].
    simpl in Hn. simpl. rewrite IH by lia. reflexivity.
Qed.

Lemma open_close_of (tie : string) : open_of tie ++ close_of tie = tie.
Proof.
  unfold open_of, close_of. apply substring_split.
  apply Nat.Div0.div_le_upper_bound. lia.
Qed.

(** X1.  The two halves that [_iterable_repr] cuts out of a bracket
    pair put together give the pair back, and for a pair that passes the
    test they have the same length. *)
Theorem X1_tie_halves :
  forall tie : string,
    open_of tie ++ close_of tie = tie
    /\ (tie_degenerate tie = false ->
        String.length (open_of tie) = String.length (close_of tie)
        /\ (0 < String.length (open_of tie))%nat).
Proof.
  intros tie. unfold open_of, close_of.
  assert (String.length tie / 2 <= String.length tie)%nat as Hle
    by (apply Nat.Div0.div_le_upper_bound; lia).
  split; [apply (open_close_of tie) |].
  intros Ht.
  assert (String.length (substring 0 (String.length tie / 2) tie)
          = (String.length tie / 2)%nat) as Ho
    by (apply substring_prefix_length; exact Hle).
  pose proof (substring_split tie _ Hle) as Hs.
  apply (f_equal String.length) in Hs. rewrite length_append, Ho in Hs.
  unfold tie_degenerate, PyStr.len in Ht.
  apply orb_false_iff in Ht. destruct Ht as [H0 H2].
  apply Z.eqb_neq in H0. apply negb_false_iff, Z.eqb_eq in H2.
  assert (String.length tie mod 2 = 0)%nat as Hm.
  { apply Nat2Z.inj. rewrite Nat2Z.inj_mod. exact H2. }
  pose proof (Nat.div_mod_eq (String.length tie) 2) as Hd.
  rewrite Ho. lia.
Qed.

Lemma X1_tie_halves_witness :
  String.length (open_of "<<>>") = String.length (close_of "<<>>")
  /\ (0 < String.length (open_of "<<>>"))%nat.
Proof. apply (proj2 (X1_tie_halves "<<>>")). reflexivity. Defined.

(** ** What the writers put into the buffer *)

Lemma concat_cons sep x rest :
  String.concat sep (x :: rest) = x ++ sep_each sep rest.
Proof.
  revert x. induction rest as [| y rest IH]; intros x.
  - simpl. rewrite append_empty_r. reflexivity.
  - change (String.concat sep (x :: y :: rest))
      with (x ++ sep ++ String.concat sep (y :: rest)).
    rewrite IH. reflexivity.
Qed.

Lemma write_entries_later sb sep i entries :
  0 < i -> write_entries sb sep i entries = sb ++ sep_each sep entries.
Proof.
  revert sb i. induction entries as [| e rest IH]; intros sb i Hi.
  - simpl. rewrite append_empty_r. reflexivity.
  - cbn [write_entries sep_each]. replace (i >? 0) with true by lia.
    rewrite IH by lia. unfold write. rewrite !append_assoc. reflexivity.
Qed.

Lemma write_entries_closed sb sep entries :
  write_entries sb sep 0 entries = sb ++ String.concat sep entries.
Proof.
  destruct entries as [| e rest].
  - simpl. rewrite append_empty_r. reflexivity.
  - cbn [write_entries]. simpl (0 >? 0). cbv iota.
    rewrite write_entries_later by lia. rewrite concat_cons.
    unfold write. rewrite append_assoc. reflexivity.
Qed.

Lemma append_lines_later sb indent i lines :
  0 < i ->
  append_lines sb indent i lines
  = sb ++ sep_each NL (map (append indent) lines).
Proof.
  revert sb i. induction lines as [| l rest IH]; intros sb i Hi.
  - simpl. rewrite append_empty_r. reflexivity.
  - cbn [append_lines map sep_each]. replace (i >? 0) with true by lia.
    rewrite IH by lia. unfold write. rewrite !append_assoc. reflexivity.
Qed.

Lemma _append_with_indent_closed sb value indent :
  _append_with_indent sb value indent = sb ++ indented indent value.
Proof.
  unfold _append_with_indent, indented.
  destruct (PyStr.splitlines value) as [| l rest].
  - simpl. rewrite append_empty_r. reflexivity.
  - cbn [append_lines map]. simpl (0 >? 0). cbv iota.
    rewrite append_lines_later by lia. rewrite concat_cons.
    unfold write. rewrite !append_assoc. reflexivity.
Qed.

Lemma write_entries_indented_as_entries sb sep indent i entries :
  write_entries_indented sb sep indent i entries
  = write_entries sb sep i (map (indented indent) entries).
Proof.
  revert sb i. induction entries as [| e rest IH]; intros sb i.
  - reflexivity.
  - cbn [write_entries_indented write_entries map].
    rewrite _append_with_indent_closed, IH. reflexivity.
Qed.

Lemma splitlines_from_one_line line open s :
  one_line s ->
  PyStr.splitlines_from line open s
  = match s with
    | EmptyString => if open then [line] else []
    | String _ _ => [line ++ s]
    end.
Proof.
  revert line open. induction s as [| c s IH]; intros line open Hs;
    [reflexivity |].
  cbn [PyStr.splitlines_from].
  assert (PyStr.is_linebreak c = false) as Hc.
  { apply Hs. simpl. rewrite Ascii.eqb_refl. reflexivity. }
  rewrite Hc. rewrite IH.
  - destruct s; [reflexivity |]. rewrite append_assoc. reflexivity.
  - intros c' Hc'. apply Hs. simpl. rewrite Hc'.
    destruct (Ascii.eqb c c'); reflexivity.
Qed.

(** X2.  [_append_with_indent] only appends: it writes the lines of
    [value], each after one [indent], joined by line breaks.  For an
    empty [value] it writes nothing, not even the indent; a non-empty
    [value] without a line boundary is written after one indent; a line
    break that ends [value] is dropped. *)
Theorem X2_append_with_indent :
  forall sb value indent : string,
    _append_with_indent sb value indent = sb ++ indented indent value
    /\ _append_with_indent sb EmptyString indent = sb
    /\ (one_line value -> value <> EmptyString ->
        _append_with_indent sb value indent = sb ++ indent ++ value)
    /\ (one_line value -> value <> EmptyString ->
        _append_with_indent sb (value ++ NL) indent = sb ++ indent ++ value).
Proof.
  intros sb value indent.
  split; [apply _append_with_indent_closed |].
  split; [rewrite _append_with_indent_closed; apply append_empty_r |].
  split.
  - intros H1 Hne. rewrite _append_with_indent_closed.
    unfold indented, PyStr.splitlines.
    rewrite splitlines_from_one_line by exact H1.
    destruct value; [congruence | reflexivity].
  - intros H1 Hne. rewrite _append_with_indent_closed.
    unfold indented, PyStr.splitlines.
    assert (forall line open,
              PyStr.splitlines_from line open (value ++ NL)
              = [line ++ value]) as Hsplit.
    { clear Hne. induction value as [| c v IH]; intros line open.
      - simpl. rewrite append_empty_r. reflexivity.
      - cbn [append PyStr.splitlines_from].
        assert (PyStr.is_linebreak c = false) as Hc.
        { apply H1. simpl. rewrite Ascii.eqb_refl. reflexivity. }
        rewrite Hc, IH.
        + rewrite append_assoc. reflexivity.
        + intros c' Hc'. apply H1. simpl. rewrite Hc'.
          destruct (Ascii.eqb c c'); reflexivity. }
    rewrite Hsplit. reflexivity.
Qed.

Lemma one_line_check (s : string) :
  forallb (fun c => negb (PyStr.is_linebreak c)) (list_ascii_of_string s)
  = true ->
  one_line s.
Proof.
  induction s as [| x s IH]; intros H c Hc; [discriminate Hc |].
  cbn [list_ascii_of_string forallb] in H.
  apply andb_true_iff in H. destruct H as [Hx Hs].
  cbn [PyStr.contains] in Hc.
  destruct (Ascii.eqb x c) eqn:E.
  - apply Ascii.eqb_eq in E. subst c.
    apply negb_true_iff in Hx. exact Hx.
  - apply IH; assumption.
Qed.

Lemma one_line_abc : one_line "abc".
Proof. apply one_line_check. reflexivity. Qed.

Lemma X2_append_with_indent_witness :
  _append_with_indent "[" "abc" "    " = "[" ++ "    " ++ "abc"
  /\ _append_with_indent "[" ("abc" ++ NL) "    " = "[" ++ "    " ++ "abc".
Proof.
  destruct (X2_append_with_indent "[" "abc" "    ") as [_ [_ [H3 H4]]].
  split.
  - apply H3; [exact one_line_abc | intros H; discriminate H].
  - apply H4; [exact one_line_abc | intros H; discriminate H].
Defined.

(** ** Sequences and sets *)

Lemma iterable_write_single open_tie close_tie indent values has_ellipsis :
  iterable_write open_tie close_tie single indent values has_ellipsis
  = open_tie ++ String.concat ", " values ++ single_tail has_ellipsis
    ++ close_tie.
Proof.
  unfold iterable_write. simpl (String.eqb _ _). cbv iota.
  rewrite write_entries_closed. unfold write, single_tail. simpl append at 1.
  destruct has_ellipsis; rewrite ?append_assoc; reflexivity.
Qed.

Lemma iterable_write_multiple open_tie close_tie indent values has_ellipsis :
  iterable_write open_tie close_tie multiple indent values has_ellipsis
  = open_tie ++ NL
    ++ String.concat ("," ++ NL) (map (indented indent) values)
    ++ NL ++ block_tail indent has_ellipsis ++ close_tie.
Proof.
  unfold iterable_write. simpl (String.eqb _ _). cbv iota.
  rewrite write_entries_indented_as_entries, write_entries_closed.
  unfold write, block_tail. simpl append at 1.
  destruct has_ellipsis; rewrite ?append_assoc; reflexivity.
Qed.

Lemma _iterable_repr_written rec lst tie lines indent ellipsis m t values :
  tie_degenerate tie = false -> t < m ->
  Forall2 (renders_to rec indent m t) (retained ellipsis lst) values ->
  result (_iterable_repr rec lst tie lines indent ellipsis m t)
  = Ret (iterable_write (open_of tie) (close_of tie)
           (match lines with
            | None => iterable_lines values (truncated ellipsis (list_len lst))
            | Some l => l
            end) indent values (truncated ellipsis (list_len lst))).
Proof.
  intros Ht Hd Hvals. unfold _iterable_repr. rewrite Ht.
  replace (t >=? m) with false by lia.
  rewrite result_bind.
  rewrite (iterable_values_firstn rec 0 _ lst indent m t values)
    by (rewrite Z.sub_0_r; exact Hvals).
  reflexivity.
Qed.

(** X3.  A layout given by the caller is used as it is, whatever the
    number and size of the entries.  On one line a sequence or set is
    the opening bracket, the rendered entries joined by [", "], the
    marker [", ..."] if it was truncated, and the closing bracket; as a
    block it is the opening bracket, a line break, the indented entries
    joined by a comma and a line break, a line break, the marker line if
    it was truncated, and the closing bracket. *)
Theorem X3_sequence_forced_layout :
  forall (rec : addr -> option REPR_LINE_MODE -> string -> Z -> Z -> M string)
         (lst : list addr) (tie : string) (indent : string)
         (ellipsis : option Z) (max_depth _depth : Z)
         (values : list string),
    tie_degenerate tie = false -> _depth < max_depth ->
    Forall2 (renders_to rec indent max_depth _depth)
      (retained ellipsis lst) values ->
    result (_iterable_repr rec lst tie (Some single) indent ellipsis
              max_depth _depth)
    = Ret (open_of tie ++ String.concat ", " values
           ++ single_tail (truncated ellipsis (list_len lst))
           ++ close_of tie)
    /\ result (_iterable_repr rec lst tie (Some multiple) indent ellipsis
                 max_depth _depth)
       = Ret (open_of tie ++ NL
              ++ String.concat ("," ++ NL) (map (indented indent) values)
              ++ NL ++ block_tail indent (truncated ellipsis (list_len lst))
              ++ close_of tie).
Proof.
  intros rec lst tie indent ellipsis m t values Ht Hd Hvals. split.
  - rewrite (_iterable_repr_written rec lst tie (Some single) indent ellipsis
               m t values Ht Hd Hvals).
    rewrite iterable_write_single. reflexivity.
  - rewrite (_iterable_repr_written rec lst tie (Some multiple) indent
               ellipsis m t values Ht Hd Hvals).
    rewrite iterable_write_multiple. reflexivity.
Qed.

Lemma X3_sequence_forced_layout_witness :
  result (_iterable_repr (_repr 1 Inputs.six) [1; 2; 3; 4; 5; 6]%nat "()"
            (Some single) default_indent None default_max_depth 0)
  = Ret (open_of "()" ++ String.concat ", " ["1"; "2"; "3"; "4"; "5"; "6"]
         ++ single_tail (truncated None 6) ++ close_of "()")
  /\ result (_iterable_repr (_repr 1 Inputs.six) [1; 2; 3; 4; 5; 6]%nat "()"
               (Some multiple) default_indent None default_max_depth 0)
     = Ret (open_of "()" ++ NL
            ++ String.concat ("," ++ NL)
                 (map (indented default_indent)
                    ["1"; "2"; "3"; "4"; "5"; "6"])
            ++ NL ++ block_tail default_indent (truncated None 6)
            ++ close_of "()").
Proof.
  apply (X3_sequence_forced_layout (_repr 1 Inputs.six)
           [1; 2; 3; 4; 5; 6]%nat "()" default_indent None
           default_max_depth 0 ["1"; "2"; "3"; "4"; "5"; "6"]).
  - reflexivity.
  - reflexivity.
  - repeat constructor.
Defined.

Lemma existsb_newline_false values :
  existsb PyStr.has_newline values = false
  <-> Forall (fun v => PyStr.has_newline v = false) values.
Proof.
  induction values as [| v rest IH]; simpl.
  - split; [constructor | reflexivity].
  - rewrite orb_false_iff, IH. split.
    + intros [H1 H2]. constructor; assumption.
    + intros H. inversion H. split; assumption.
Qed.

Lemma iterable_lines_fits values has_ellipsis :
  iterable_lines values has_ellipsis = single
  <-> fits_one_line values has_ellipsis.
Proof.
  unfold fits_one_line. rewrite iterable_lines_single_iff.
  rewrite existsb_newline_false. reflexivity.
Qed.

(** X4.  With no layout given, a sequence or set is written on one line
    exactly when it has at most five rendered entries, is not truncated,
    the sum of [len(v) + 2] over the entries less one is at most 120,
    and no entry holds a line break; otherwise it is written as a
    block. *)
Theorem X4_sequence_default_layout :
  forall (rec : addr -> option REPR_LINE_MODE -> string -> Z -> Z -> M string)
         (lst : list addr) (tie : string) (indent : string)
         (ellipsis : option Z) (max_depth _depth : Z)
         (values : list string),
    tie_degenerate tie = false -> _depth < max_depth ->
    Forall2 (renders_to rec indent max_depth _depth)
      (retained ellipsis lst) values ->
    (fits_one_line values (truncated ellipsis (list_len lst)) ->
     result (_iterable_repr rec lst tie None indent ellipsis max_depth _depth)
     = Ret (open_of tie ++ String.concat ", " values ++ close_of tie))
    /\ (~ fits_one_line values (truncated ellipsis (list_len lst)) ->
        result (_iterable_repr rec lst tie None indent ellipsis max_depth
                  _depth)
        = Ret (open_of tie ++ NL
               ++ String.concat ("," ++ NL) (map (indented indent) values)
               ++ NL
               ++ block_tail indent (truncated ellipsis (list_len lst))
               ++ close_of tie)).
Proof.
  intros rec lst tie indent ellipsis m t values Ht Hd Hvals.
  rewrite (_iterable_repr_written rec lst tie None indent ellipsis m t
             values Ht Hd Hvals).
  split; intros Hfit.
  - pose proof Hfit as [_ [He _]].
    apply iterable_lines_fits in Hfit. rewrite Hfit.
    rewrite iterable_write_single, He. reflexivity.
  - destruct (iterable_lines values (truncated ellipsis (list_len lst)))
      eqn:E.
    + apply iterable_lines_fits in E. contradiction.
    + rewrite iterable_write_multiple. reflexivity.
Qed.

Lemma three_fits : fits_one_line ["1"; "2"; "3"] (truncated None 3).
Proof.
  unfold fits_one_line. repeat split; try (vm_compute; congruence).
  repeat constructor.
Qed.

Lemma six_does_not_fit :
  ~ fits_one_line ["1"; "2"; "3"; "4"; "5"; "6"] (truncated None 6).
Proof. intros [H _]. vm_compute in H. apply H. reflexivity. Qed.

Lemma X4_sequence_default_layout_witness :
  result (_iterable_repr (_repr 1 Inputs.three) [1; 2; 3]%nat "[]" None
            default_indent None default_max_depth 0)
  = Ret (open_of "[]" ++ String.concat ", " ["1"; "2"; "3"] ++ close_of "[]")
  /\ result (_iterable_repr (_repr 1 Inputs.six) [1; 2; 3; 4; 5; 6]%nat "[]"
               None default_indent None default_max_depth 0)
     = Ret (open_of "[]" ++ NL
            ++ String.concat ("," ++ NL)
                 (map (indented default_indent)
                    ["1"; "2"; "3"; "4"; "5"; "6"])
            ++ NL ++ block_tail default_indent (truncated None 6)
            ++ close_of "[]").
Proof.
  split.
  - apply (proj1 (X4_sequence_default_layout (_repr 1 Inputs.three)
                    [1; 2; 3]%nat "[]" default_indent None
                    default_max_depth 0 ["1"; "2"; "3"]
                    eq_refl eq_refl
                    ltac:(repeat constructor))).
    exact three_fits.
  - apply (proj2 (X4_sequence_default_layout (_repr 1 Inputs.six)
                    [1; 2; 3; 4; 5; 6]%nat "[]" default_indent None
                    default_max_depth 0 ["1"; "2"; "3"; "4"; "5"; "6"]
                    eq_refl eq_refl
                    ltac:(repeat constructor))).
    exact six_does_not_fit.
Defined.

Lemma has_newline_concat sep values :
  PyStr.has_newline sep = false ->
  Forall (fun v => PyStr.has_newline v = false) values ->
  PyStr.has_newline (String.concat sep values) = false.
Proof.
  intros Hsep Hvals. induction Hvals as [| v rest Hv Hrest IH];
    [reflexivity |].
  rewrite concat_cons. unfold PyStr.has_newline in *.
  rewrite contains_append, Hv. simpl orb.
  clear IH Hv. induction Hrest as [| w rest' Hw Hrest' IH'];
    [reflexivity |].
  cbn [sep_each]. rewrite !contains_append, Hsep, Hw, IH'. reflexivity.
Qed.

(** X5.  With no layout given and a bracket pair without a line break,
    the text of a sequence or set that is written on one line holds no
    line break. *)
Theorem X5_one_line_has_no_line_break :
  forall (rec : addr -> option REPR_LINE_MODE -> string -> Z -> Z -> M string)
         (lst : list addr) (tie : string) (indent : string)
         (ellipsis : option Z) (max_depth _depth : Z)
         (values : list string),
    tie_degenerate tie = false -> _depth < max_depth ->
    PyStr.has_newline tie = false ->
    Forall2 (renders_to rec indent max_depth _depth)
      (retained ellipsis lst) values ->
    fits_one_line values (truncated ellipsis (list_len lst)) ->
    exists s,
      result (_iterable_repr rec lst tie None indent ellipsis max_depth
                _depth) = Ret s
      /\ PyStr.has_newline s = false.
Proof.
  intros rec lst tie indent ellipsis m t values Ht Hd Htie Hvals Hfit.
  rewrite (_iterable_repr_written rec lst tie None indent ellipsis m t
             values Ht Hd Hvals).
  pose proof Hfit as [_ [He [_ Hnl]]].
  apply iterable_lines_fits in Hfit. rewrite Hfit, iterable_write_single, He.
  eexists. split; [reflexivity |].
  pose proof (has_newline_concat ", " values eq_refl Hnl) as Hjoin.
  unfold PyStr.has_newline in *.
  rewrite <- (open_close_of tie), contains_append in Htie.
  apply orb_false_iff in Htie. destruct Htie as [Ho Hc].
  rewrite !contains_append, Ho, Hc, Hjoin. reflexivity.
Qed.

Lemma X5_one_line_has_no_line_break_witness :
  exists s,
    result (_iterable_repr (_repr 1 Inputs.three) [1; 2; 3]%nat "[]" None
              default_indent None default_max_depth 0) = Ret s
    /\ PyStr.has_newline s = false.
Proof.
  apply (X5_one_line_has_no_line_break (_repr 1 Inputs.three)
           [1; 2; 3]%nat "[]" default_indent None default_max_depth 0
           ["1"; "2"; "3"]).
  - reflexivity.
  - reflexivity.
  - reflexivity.
  - repeat constructor.
  - exact three_fits.
Defined.

(** ** Empty containers, odd truncation counts, dropped entries *)

Lemma or_length_empty ellipsis :
  ellipsis_in_range ellipsis -> (0 >? or_length ellipsis 0) = false.
Proof.
  destruct ellipsis as [k |]; simpl; intros H; [| reflexivity].
  destruct (k =? 0); lia.
Qed.

(** X6.  An empty sequence or set rendered with no layout given is its
    bracket pair and an empty mapping is ["{}"], whatever the budgets
    and for every truncation count that is absent or not negative; a
    record without fields is [Name()].  No [_repr] call is made.  Only
    the block layout asked for by the caller puts line breaks between
    the brackets of an empty sequence. *)
Theorem X6_empty_containers :
  forall (h : heap)
         (rec : addr -> option REPR_LINE_MODE -> string -> Z -> Z -> M string)
         (tie : string) (o : kis_object) (lines : option REPR_LINE_MODE)
         (field_lines : option (list (string * REPR_LINE_MODE)))
         (indent : string) (ellipsis : option Z) (max_depth _depth : Z),
    _depth < max_depth ->
    ellipsis_in_range ellipsis ->
    (tie_degenerate tie = false ->
     _iterable_repr rec [] tie None indent ellipsis max_depth _depth
     = ret tie
     /\ _iterable_repr rec [] tie (Some single) indent ellipsis max_depth
          _depth = ret tie
     /\ _iterable_repr rec [] tie (Some multiple) indent ellipsis max_depth
          _depth = ret (open_of tie ++ NL ++ NL ++ close_of tie))
    /\ dict_repr rec [] lines indent ellipsis max_depth _depth = ret "{}"
    /\ object_repr h rec o (Some []) None field_lines indent max_depth _depth
       = ret (class_name o ++ "()").
Proof.
  intros h rec tie o lines field_lines indent ellipsis m t Hd He.
  pose proof (or_length_empty ellipsis He) as Hor.
  assert ((t >=? m) = false) as Hge by lia.
  split; [| split].
  - intros Ht. unfold _iterable_repr. rewrite Ht, Hge.
    cbn [iterable_values]. rewrite !bind_ret_l.
    change (list_len (@nil addr)) with 0. rewrite Hor.
    change (iterable_lines [] false) with single.
    rewrite !iterable_write_single, iterable_write_multiple.
    unfold single_tail, block_tail. cbn [String.concat map append].
    rewrite (open_close_of tie). repeat split.
  - unfold dict_repr. rewrite Hge. cbn [dict_values]. rewrite bind_ret_l.
    change (list_len (@nil (key * addr))) with 0. rewrite Hor.
    destruct lines as [[|] |]; reflexivity.
  - unfold object_repr. rewrite Hge. cbn [object_values].
    rewrite bind_ret_l. change (object_lines []) with (@ret REPR_LINE_MODE single).
    rewrite bind_ret_l. unfold object_write, write.
    cbn [String.eqb mode_str map write_entries append].
    simpl (String.eqb _ _). cbv iota.
    rewrite append_assoc. reflexivity.
Qed.

Lemma X6_empty_containers_witness :
  _iterable_repr (_repr 1 Inputs.three) [] "[]" None default_indent (Some 3)
    default_max_depth 0 = ret "[]"
  /\ dict_repr (_repr 1 Inputs.three) [] (Some multiple) default_indent
       (Some 3) default_max_depth 0 = ret "{}"
  /\ object_repr Inputs.order (_repr 1 Inputs.order) Inputs.Order (Some [])
       None None default_indent default_max_depth 0 = ret "Order()".
Proof.
  destruct (X6_empty_containers Inputs.order (_repr 1 Inputs.three) "[]"
              Inputs.Order (Some multiple) None default_indent (Some 3)
              default_max_depth 0 eq_refl ltac:(simpl; lia))
    as [H1 [H2 _]].
  destruct (X6_empty_containers Inputs.order (_repr 1 Inputs.order) "[]"
              Inputs.Order (Some multiple) None default_indent (Some 3)
              default_max_depth 0 eq_refl ltac:(simpl; lia))
    as [_ [_ H3]].
  split; [apply (H1 eq_refl) | split; [exact H2 | exact H3]].
Defined.

Lemma iterable_values_none rec i cap lst indent m t :
  cap <= i -> iterable_values rec i cap lst indent m t = ret [].
Proof.
  intros H. destruct lst as [| v rest]; [reflexivity |].
  cbn [iterable_values]. replace (i >=? cap) with true by lia. reflexivity.
Qed.

(** X7.  A negative truncation count keeps no entry and always counts
    as a truncation: with no layout given, every sequence or set, the
    empty one included, is the block that holds the marker line only,
    and no entry is rendered. *)
Theorem X7_negative_ellipsis :
  forall (rec : addr -> option REPR_LINE_MODE -> string -> Z -> Z -> M string)
         (lst : list addr) (tie : string) (indent : string) (k : Z)
         (max_depth _depth : Z),
    k < 0 -> _depth < max_depth -> tie_degenerate tie = false ->
    _iterable_repr rec lst tie None indent (Some k) max_depth _depth
    = ret (open_of tie ++ NL ++ NL ++ indent ++ "..." ++ NL ++ close_of tie).
Proof.
  intros rec lst tie indent k m t Hk Hd Ht.
  unfold _iterable_repr. rewrite Ht.
  replace (t >=? m) with false by lia.
  assert (or_length (Some k) (list_len lst) = k) as Hor.
  { unfold or_length. replace (k =? 0) with false by lia. reflexivity. }
  rewrite Hor, iterable_values_none by lia. rewrite bind_ret_l.
  assert ((list_len lst >? k) = true) as Hgt.
  { apply Z.gtb_lt. pose proof (Nat2Z.is_nonneg (List.length lst)).
    unfold list_len. lia. }
  rewrite Hgt. unfold iterable_lines.
  rewrite andb_false_r. simpl andb. cbv iota.
  rewrite iterable_write_multiple. unfold block_tail. simpl String.concat.
  simpl append at 3. rewrite !append_assoc. reflexivity.
Qed.

Lemma X7_negative_ellipsis_witness :
  _iterable_repr (_repr 1 Inputs.three) [1; 2; 3]%nat "[]" None
    default_indent (Some (-1)) default_max_depth 0
  = ret (open_of "[]" ++ NL ++ NL ++ default_indent ++ "..." ++ NL
         ++ close_of "[]").
Proof.
  apply (X7_negative_ellipsis (_repr 1 Inputs.three) [1; 2; 3]%nat "[]"
           default_indent (-1) default_max_depth 0);
    reflexivity.
Defined.

Lemma iterable_values_kept rec i cap kept dropped indent m t :
  list_len kept = cap - i ->
  iterable_values rec i cap (kept ++ dropped) indent m t
  = iterable_values rec i cap kept indent m t.
Proof.
  revert i. induction kept as [| v rest IH]; intros i Hlen.
  - simpl app. unfold list_len in Hlen. simpl in Hlen.
    rewrite iterable_values_none by lia. reflexivity.
  - cbn [app iterable_values].
    destruct (i >=? cap); [reflexivity |].
    apply bind_ext. intros rv. rewrite IH; [reflexivity |].
    unfold list_len in *. simpl List.length in Hlen. lia.
Qed.

Lemma dict_values_kept rec i cap kept dropped indent m t :
  list_len kept = cap - i ->
  dict_values rec i cap (kept ++ dropped) indent m t
  = dict_values rec i cap kept indent m t.
Proof.
  revert i. induction kept as [| [k v] rest IH]; intros i Hlen.
  - simpl app. unfold list_len in Hlen. simpl in Hlen.
    destruct dropped as [| [k v] rest]; [reflexivity |].
    cbn [dict_values]. replace (i >=? cap) with true by lia. reflexivity.
  - cbn [app dict_values].
    destruct (i >=? cap); [reflexivity |].
    apply bind_ext. intros rv. rewrite IH; [reflexivity |].
    unfold list_len in *. simpl List.length in Hlen. lia.
Qed.

Lemma list_len_app {A} (l l' : list A) :
  list_len (l ++ l') = list_len l + list_len l'.
Proof. unfold list_len. rewrite length_app. lia. Qed.

Lemma list_len_pos {A} (l : list A) : l <> [] -> 0 < list_len l.
Proof. destruct l; [congruence |]. unfold list_len. simpl. lia. Qed.

(** X8.  The entries beyond the truncation count are neither rendered
    nor looked at: a sequence, set or mapping truncated at [k >= 1] is
    rendered, call for call, as any other one with the same first [k]
    entries and at least one more. *)
Theorem X8_dropped_entries_unread :
  forall (rec : addr -> option REPR_LINE_MODE -> string -> Z -> Z -> M string)
         (k : Z) (lines : option REPR_LINE_MODE) (indent : string)
         (max_depth _depth : Z),
    1 <= k ->
    (forall (kept dropped dropped' : list addr) (tie : string),
       list_len kept = k -> dropped <> [] -> dropped' <> [] ->
       _iterable_repr rec (kept ++ dropped) tie lines indent (Some k)
         max_depth _depth
       = _iterable_repr rec (kept ++ dropped') tie lines indent (Some k)
           max_depth _depth)
    /\ (forall (kept dropped dropped' : list (key * addr)),
          list_len kept = k -> dropped <> [] -> dropped' <> [] ->
          dict_repr rec (kept ++ dropped) lines indent (Some k)
            max_depth _depth
          = dict_repr rec (kept ++ dropped') lines indent (Some k)
              max_depth _depth).
Proof.
  intros rec k lines indent m t Hk.
  assert (forall n, or_length (Some k) n = k) as Hor.
  { intros n. unfold or_length. replace (k =? 0) with false by lia.
    reflexivity. }
  split.
  - intros kept dropped dropped' tie Hlen Hd Hd'.
    unfold _iterable_repr. rewrite !Hor.
    rewrite !iterable_values_kept by lia.
    rewrite !list_len_app.
    pose proof (list_len_pos dropped Hd). pose proof (list_len_pos dropped' Hd').
    replace (list_len kept + list_len dropped >? k) with true by lia.
    replace (list_len kept + list_len dropped' >? k) with true by lia.
    reflexivity.
  - intros kept dropped dropped' Hlen Hd Hd'.
    unfold dict_repr. rewrite !Hor.
    rewrite !dict_values_kept by lia.
    rewrite !list_len_app.
    pose proof (list_len_pos dropped Hd). pose proof (list_len_pos dropped' Hd').
    replace (list_len kept + list_len dropped >? k) with true by lia.
    replace (list_len kept + list_len dropped' >? k) with true by lia.
    reflexivity.
Qed.

Lemma X8_dropped_entries_unread_witness :
  _iterable_repr (_repr 1 Inputs.six) ([1; 2]%nat ++ [3; 4; 5; 6]%nat) "[]"
    None default_indent (Some 2) default_max_depth 0
  = _iterable_repr (_repr 1 Inputs.six) ([1; 2]%nat ++ [0%nat]) "[]"
      None default_indent (Some 2) default_max_depth 0.
Proof.
  apply (proj1 (X8_dropped_entries_unread (_repr 1 Inputs.six) 2 None
                  default_indent default_max_depth 0 ltac:(lia))).
  - reflexivity.
  - discriminate.
  - discriminate.
Defined.

(** ** Records *)

Lemma object_values_rendered h rec o fields field_lines indent m t values :
  Forall2 (field_renders_to h rec o field_lines indent m t) fields values ->
  result (object_values h rec o fields field_lines indent m t) = Ret values.
Proof.
  intros H. induction H as [| field [k v] fields values [Hk Hv] Hrest IH];
    [reflexivity |].
  simpl in Hk, Hv. subst k.
  rewrite object_values_cons, result_bind.
  destruct v as [s |].
  - destruct Hv as [a [Ha Hs]]. rewrite Ha.
    rewrite !result_bind, Hs. cbn [result ret fst].
    rewrite result_bind, IH. reflexivity.
  - rewrite Hv. rewrite !result_bind. cbn [result ret fst].
    rewrite result_bind, IH. reflexivity.
Qed.

Lemma object_cost_rendered acc values :
  all_rendered values ->
  object_cost acc values = ret (acc + record_cost values).
Proof.
  intros H. revert acc. induction H as [| [k v] rest Hv Hrest IH]; intros acc.
  - simpl. rewrite Z.add_0_r. reflexivity.
  - simpl in Hv. destruct v as [s |]; [| congruence].
    cbn [object_cost len_rendered]. rewrite bind_ret_l, IH.
    cbn [record_cost fold_right fst snd format_rendered].
    f_equal. fold (record_cost rest). lia.
Qed.

Lemma object_any_newline_rendered values :
  all_rendered values ->
  object_any_newline values
  = ret (existsb (fun kv => PyStr.has_newline (format_rendered (snd kv)))
           values).
Proof.
  intros H. induction H as [| [k v] rest Hv Hrest IH]; [reflexivity |].
  simpl in Hv. destruct v as [s |]; [| congruence].
  cbn [object_any_newline newline_in_rendered existsb snd format_rendered].
  rewrite bind_ret_l.
  destruct (PyStr.has_newline s); [reflexivity | exact IH].
Qed.

Lemma existsb_false_Forall {A} (f : A -> bool) l :
  existsb f l = false <-> Forall (fun x => f x = false) l.
Proof.
  induction l as [| x rest IH]; simpl.
  - split; [constructor | reflexivity].
  - rewrite orb_false_iff, IH. split.
    + intros [H1 H2]. constructor; assumption.
    + intros H. inversion H. split; assumption.
Qed.

Lemma object_lines_rendered values :
  all_rendered values ->
  (record_fits_one_line values -> object_lines values = ret single)
  /\ (~ record_fits_one_line values -> object_lines values = ret multiple).
Proof.
  intros Hall. unfold object_lines, record_fits_one_line.
  destruct (list_len values <=? 5) eqn:E1; simpl negb; cbv iota.
  2:{ split; [intros [H _]; lia | reflexivity]. }
  rewrite (object_cost_rendered 0 values Hall), bind_ret_l. simpl (0 + _).
  destruct (record_cost values - 1 <=? SINGLE_LINE_MAX_LENGTH) eqn:E2;
    simpl negb; cbv iota.
  2:{ split; [intros [_ [H _]]; lia | reflexivity]. }
  rewrite (object_any_newline_rendered values Hall), bind_ret_l.
  destruct (existsb _ values) eqn:E3; simpl negb; cbv iota.
  - split; [| reflexivity]. intros [_ [_ H]].
    apply existsb_false_Forall in H. congruence.
  - split; [reflexivity |]. intros H. exfalso. apply H.
    repeat split; [lia | lia |]. apply existsb_false_Forall. exact E3.
Qed.

Lemma object_write_single name indent values :
  object_write name single indent values
  = name ++ "(" ++ String.concat ", " (map object_entry values) ++ ")".
Proof.
  unfold object_write. simpl (String.eqb _ _). cbv iota.
  rewrite write_entries_closed. unfold write. simpl append at 1.
  rewrite !append_assoc. reflexivity.
Qed.

Lemma object_write_multiple name indent values :
  object_write name multiple indent values
  = name ++ "(" ++ NL
    ++ String.concat ("," ++ NL)
         (map (indented indent) (map object_entry values))
    ++ NL ++ ")".
Proof.
  unfold object_write. simpl (String.eqb _ _). cbv iota.
  rewrite write_entries_indented_as_entries, write_entries_closed.
  unfold write. simpl append at 1. rewrite !append_assoc. reflexivity.
Qed.

Lemma object_repr_written h rec o fields field_lines indent m t values :
  t < m ->
  Forall2 (field_renders_to h rec o field_lines indent m t) fields values ->
  result (object_repr h rec o (Some fields) None field_lines indent m t)
  = match result (object_lines values) with
    | Ret l => Ret (object_write (class_name o) l indent values)
    | Raise e => Raise e
    | OutOfFuel => OutOfFuel
    end.
Proof.
  intros Hd Hvals. unfold object_repr.
  replace (t >=? m) with false by lia.
  rewrite result_bind,
    (object_values_rendered h rec o fields field_lines indent m t values Hvals).
  rewrite result_bind.
  destruct (result (object_lines values)); reflexivity.
Qed.

(** X9.  With no layout given and every field found, a record is
    written on one line, as [Name(field=value, ...)], exactly when it
    has at most five fields, the sum of [len(k) + len(v) + 2] over them
    less one is at most 120, and no value holds a line break; otherwise
    it is written as a block with one indented [field=value] per entry.
    There is no truncation. *)
Theorem X9_record_default_layout :
  forall (h : heap)
         (rec : addr -> option REPR_LINE_MODE -> string -> Z -> Z -> M string)
         (o : kis_object) (fields : list string)
         (field_lines : option (list (string * REPR_LINE_MODE)))
         (indent : string) (max_depth _depth : Z)
         (values : list (string * rendered)),
    _depth < max_depth ->
    Forall2 (field_renders_to h rec o field_lines indent max_depth _depth)
      fields values ->
    all_rendered values ->
    (record_fits_one_line values ->
     result (object_repr h rec o (Some fields) None field_lines indent
               max_depth _depth)
     = Ret (class_name o ++ "("
            ++ String.concat ", " (map object_entry values) ++ ")"))
    /\ (~ record_fits_one_line values ->
        result (object_repr h rec o (Some fields) None field_lines indent
                  max_depth _depth)
        = Ret (class_name o ++ "(" ++ NL
               ++ String.concat ("," ++ NL)
                    (map (indented indent) (map object_entry values))
               ++ NL ++ ")")).
Proof.
  intros h rec o fields field_lines indent m t values Hd Hvals Hall.
  destruct (object_lines_rendered values Hall) as [Hs Hm].
  rewrite (object_repr_written h rec o fields field_lines indent m t values
             Hd Hvals).
  split; intros Hfit.
  - rewrite (Hs Hfit). cbn [result ret fst].
    rewrite object_write_single. reflexivity.
  - rewrite (Hm Hfit). cbn [result ret fst].
    rewrite object_write_multiple. reflexivity.
Qed.

Lemma X9_record_default_layout_witness :
  result (object_repr MoreInputs.quote (_repr 1 MoreInputs.quote)
            MoreInputs.Quote (Some ["symbol"; "price"]) None None
            default_indent default_max_depth 0)
  = Ret ("Quote("
         ++ String.concat ", "
              (map object_entry
                 [("symbol", Text "'AAPL'"); ("price", Text "7")])
         ++ ")").
Proof.
  apply (proj1 (X9_record_default_layout MoreInputs.quote
                  (_repr 1 MoreInputs.quote) MoreInputs.Quote
                  ["symbol"; "price"] None default_indent default_max_depth 0
                  [("symbol", Text "'AAPL'"); ("price", Text "7")]
                  eq_refl
                  ltac:(repeat constructor; eexists; split; reflexivity)
                  ltac:(repeat constructor; discriminate))).
  unfold record_fits_one_line.
  repeat split; try (vm_compute; congruence). repeat constructor.
Defined.

(** X10.  A record of more than five fields is written as a block with
    no further test: its missing fields are shown as [field=Unbounded]
    and the call does not raise. *)
Theorem X10_record_of_many_fields :
  forall (h : heap)
         (rec : addr -> option REPR_LINE_MODE -> string -> Z -> Z -> M string)
         (o : kis_object) (fields : list string)
         (field_lines : option (list (string * REPR_LINE_MODE)))
         (indent : string) (max_depth _depth : Z)
         (values : list (string * rendered)),
    _depth < max_depth ->
    Forall2 (field_renders_to h rec o field_lines indent max_depth _depth)
      fields values ->
    list_len fields > 5 ->
    result (object_repr h rec o (Some fields) None field_lines indent
              max_depth _depth)
    = Ret (class_name o ++ "(" ++ NL
           ++ String.concat ("," ++ NL)
                (map (indented indent) (map object_entry values))
           ++ NL ++ ")")
    /\ forall field, In (field, Unrendered) values ->
         In (field ++ "=Unbounded") (map object_entry values).
Proof.
  intros h rec o fields field_lines indent m t values Hd Hvals Hlen.
  split.
  - rewrite (object_repr_written h rec o fields field_lines indent m t
               values Hd Hvals).
    unfold object_lines.
    rewrite (Forall2_list_len _ _ _ Hvals).
    replace (list_len fields <=? 5) with false by lia.
    cbn [negb result ret fst]. rewrite object_write_multiple. reflexivity.
  - intros field Hin.
    change (field ++ "=Unbounded") with (object_entry (field, Unrendered)).
    apply in_map. exact Hin.
Qed.

Lemma X10_record_of_many_fields_witness :
  result (object_repr MoreInputs.wide (_repr 1 MoreInputs.wide)
            MoreInputs.Wide (Some ["a"; "b"; "c"; "d"; "e"; "f"]) None None
            default_indent default_max_depth 0)
  = Ret ("Wide(" ++ NL
         ++ String.concat ("," ++ NL)
              (map (indented default_indent)
                 (map object_entry
                    [("a", Text "1"); ("b", Unrendered); ("c", Unrendered);
                     ("d", Unrendered); ("e", Unrendered);
                     ("f", Unrendered)]))
         ++ NL ++ ")").
Proof.
  apply (proj1 (X10_record_of_many_fields MoreInputs.wide
                  (_repr 1 MoreInputs.wide) MoreInputs.Wide
                  ["a"; "b"; "c"; "d"; "e"; "f"] None default_indent
                  default_max_depth 0
                  [("a", Text "1"); ("b", Unrendered); ("c", Unrendered);
                   ("d", Unrendered); ("e", Unrendered); ("f", Unrendered)]
                  eq_refl
                  ltac:(repeat constructor; eexists; split; reflexivity)
                  ltac:(vm_compute; reflexivity))).
Defined.

(** X11.  A record met inside another value is rendered with the
    [lines], [indent] and [max_depth] of its own class: the layout, the
    indent and the depth limit of the caller play no part, as long as
    the caller's limit lets the record be entered. *)
Theorem X11_record_keeps_its_own_arguments :
  forall (fuel : nat) (h : heap) (obj : addr) (o : kis_object)
         (lines lines' : option REPR_LINE_MODE) (indent indent' : string)
         (max_depth max_depth' _depth : Z),
    h obj = OKis o ->
    _depth < max_depth -> _depth < max_depth' ->
    _repr (S fuel) h obj lines indent max_depth _depth
    = _repr (S fuel) h obj lines' indent' max_depth' _depth
    /\ result (_repr (S fuel) h obj lines indent max_depth _depth)
       = result (object_repr h (_repr fuel h) o
                   (match kis_fields o with [] => None | fs => Some fs end)
                   (kis_lines o) (kis_field_lines o) (kis_indent o)
                   (kis_max_depth o) _depth).
Proof.
  intros fuel h obj o lines lines' indent indent' m m' t Ho Hd Hd'.
  rewrite !_repr_S.
  replace (t >=? m) with false by lia.
  replace (t >=? m') with false by lia.
  unfold dispatch. rewrite Ho. split; [reflexivity |].
  rewrite result_bind. reflexivity.
Qed.

Lemma X11_record_keeps_its_own_arguments_witness :
  _repr 2 MoreInputs.quote 0%nat (Some multiple) "  " 1 0
  = _repr 2 MoreInputs.quote 0%nat None default_indent default_max_depth 0.
Proof.
  apply (proj1 (X11_record_keeps_its_own_arguments 1 MoreInputs.quote 0%nat
                  MoreInputs.Quote (Some multiple) None "  " default_indent
                  1 default_max_depth 0 eq_refl eq_refl eq_refl)).
Defined.

(** ** Values without records *)


(** The recursion limit is the only thing that stops the list that is
    its own element before [max_depth] does: when the host admits no
    more than [max_depth - _depth] nested [_repr] calls, the call ends
    with [OutOfFuel]. *)
Lemma self_list_recursion_limit fuel :
  forall lines indent max_depth _depth,
    _depth + Z.of_nat fuel <= max_depth ->
    result (_repr fuel Inputs.self_list 0%nat lines indent max_depth _depth)
    = OutOfFuel.
Proof.
  induction fuel as [| fuel IH]; intros lines indent m t Hm.
  - reflexivity.
  - rewrite _repr_S, result_bind. cbn [enter result fst].
    replace (t >=? m) with false by lia.
    unfold dispatch. cbn [Inputs.self_list].
    unfold list_repr, _iterable_repr.
    change (tie_degenerate "[]") with false. cbv iota.
    replace (t >=? m) with false by lia.
    rewrite result_bind.
    change (or_length None (list_len [0%nat])) with 1.
    cbn [iterable_values]. change (0 >=? 1) with false. cbv iota.
    rewrite result_bind, IH by lia. reflexivity.
Qed.




(** ** The entries are rendered in order, up to the first that fails *)

Lemma iterable_values_calls rec i cap lst indent m t values :
  list_len lst <= cap - i ->
  Forall2 (renders_to rec indent m t) lst values ->
  iterable_values rec i cap lst indent m t
  = (Ret values, entry_calls rec indent m t lst).
Proof.
  revert i values. induction lst as [| x rest IH]; intros i values Hlen H.
  - inversion H. reflexivity.
  - inversion H as [| ? v ? vs Hx Hrest]; subst.
    assert (list_len rest <= cap - (i + 1)) as Hlen'
      by (unfold list_len in *; simpl List.length in Hlen; lia).
    cbn [iterable_values].
    replace (i >=? cap) with false
      by (unfold list_len in Hlen; simpl List.length in Hlen; lia).
    unfold renders_to in Hx.
    destruct (rec x None indent m (t + 1)) as [r w] eqn:E.
    simpl in Hx. subst r. rewrite (IH _ _ Hlen' Hrest).
    unfold entry_calls. cbn [map List.concat]. rewrite E.
    unfold bind, ret. cbn [calls snd]. rewrite app_nil_r. reflexivity.
Qed.

Lemma iterable_values_raises rec i cap before x after indent m t values e :
  list_len before < cap - i ->
  Forall2 (renders_to rec indent m t) before values ->
  result (rec x None indent m (t + 1)) = Raise e ->
  iterable_values rec i cap (before ++ x :: after) indent m t
  = (Raise e, entry_calls rec indent m t (before ++ [x])).
Proof.
  revert i values. induction before as [| y rest IH]; intros i values Hlen H Hx.
  - cbn [app iterable_values].
    replace (i >=? cap) with false
      by (unfold list_len in Hlen; simpl List.length in Hlen; lia).
    destruct (rec x None indent m (t + 1)) as [r w] eqn:E.
    simpl in Hx. subst r.
    unfold entry_calls. cbn [map List.concat]. rewrite E.
    unfold bind. cbn [calls snd]. rewrite app_nil_r. reflexivity.
  - inversion H as [| ? v ? vs Hy Hrest]; subst.
    assert (list_len rest < cap - (i + 1)) as Hlen'
      by (unfold list_len in *; simpl List.length in Hlen; lia).
    cbn [app iterable_values].
    replace (i >=? cap) with false
      by (unfold list_len in Hlen; simpl List.length in Hlen; lia).
    unfold renders_to in Hy.
    destruct (rec y None indent m (t + 1)) as [r w] eqn:E.
    simpl in Hy. subst r. rewrite (IH _ _ Hlen' Hrest Hx).
    unfold entry_calls. cbn [app map List.concat]. rewrite E.
    unfold bind. cbn [calls snd]. reflexivity.
Qed.

(** X24.  A sequence or set that is not truncated renders its entries
    once each, from the first to the last, one level down, and makes no
    other [_repr] call.  If an entry raises, the entries after it are
    not rendered and the call ends with the error of that entry. *)
Theorem X24_entries_in_order :
  forall (rec : addr -> option REPR_LINE_MODE -> string -> Z -> Z -> M string)
         (tie : string) (lines : option REPR_LINE_MODE) (indent : string)
         (max_depth _depth : Z),
    tie_degenerate tie = false -> _depth < max_depth ->
    (forall lst values,
       Forall2 (renders_to rec indent max_depth _depth) lst values ->
       calls (_iterable_repr rec lst tie lines indent None max_depth _depth)
       = entry_calls rec indent max_depth _depth lst)
    /\ (forall before x after values e,
          Forall2 (renders_to rec indent max_depth _depth) before values ->
          result (rec x None indent max_depth (_depth + 1)) = Raise e ->
          _iterable_repr rec (before ++ x :: after) tie lines indent None
            max_depth _depth
          = (Raise e,
             entry_calls rec indent max_depth _depth (before ++ [x]))).
Proof.
  intros rec tie lines indent m t Ht Hd. split.
  - intros lst values Hvals. unfold _iterable_repr. rewrite Ht.
    replace (t >=? m) with false by lia. cbn [or_length].
    rewrite (iterable_values_calls rec 0 _ lst indent m t values)
      by (try lia; exact Hvals).
    unfold bind, ret. cbn [calls snd]. rewrite app_nil_r. reflexivity.
  - intros before x after values e Hvals Hx. unfold _iterable_repr.
    rewrite Ht. replace (t >=? m) with false by lia. cbn [or_length].
    rewrite (iterable_values_raises rec 0 _ before x after indent m t values
               e); [reflexivity | | exact Hvals | exact Hx].
    rewrite list_len_app. unfold list_len. simpl List.length. lia.
Qed.

Lemma X24_entries_in_order_witness :
  calls (_iterable_repr (_repr 1 Inputs.three) [1; 2; 3]%nat "[]" None
           default_indent None default_max_depth 0)
  = entry_calls (_repr 1 Inputs.three) default_indent default_max_depth 0
      [1; 2; 3]%nat
  /\ _iterable_repr (_repr 2 Inputs.order) ([1%nat] ++ 0%nat :: [1%nat]) "[]"
       None default_indent None default_max_depth 0
     = (Raise (TypeError "object of type 'UnboundedType' has no len()"),
        entry_calls (_repr 2 Inputs.order) default_indent default_max_depth 0
          ([1%nat] ++ [0%nat])).
Proof.
  split.
  - apply (proj1 (X24_entries_in_order (_repr 1 Inputs.three) "[]" None
                    default_indent default_max_depth 0 eq_refl eq_refl)
             [1; 2; 3]%nat ["1"; "2"; "3"]).
    repeat constructor.
  - apply (proj2 (X24_entries_in_order (_repr 2 Inputs.order) "[]" None
                    default_indent default_max_depth 0 eq_refl eq_refl)
             [1%nat] 0%nat [1%nat] ["'AAPL'"]).
    + repeat constructor.
    + reflexivity.
Defined.

(** * Properties of pykis.api.account.daily_order *)

(** ** Look-ups in KisDailyOrders *)

Lemma first_order_some {Order} (test : Order -> bool) orders o :
  DailyOrder.first_order Order test orders = Some o
  <-> exists before after,
        orders = (before ++ o :: after)%list
        /\ test o = true
        /\ Forall (fun o' => test o' = false) before.
Proof.
  induction orders as [| x rest IH]; simpl.
  - split; [discriminate |]. intros [before [after [H _]]].
    destruct before; discriminate.
  - destruct (test x) eqn:E.
    + split.
      * intros H. injection H as <-. exists [], rest.
        repeat split; [exact E | constructor].
      * intros [before [after [H [Ho Hb]]]].
        destruct before as [| y before].
        -- simpl in H. injection H as -> _. reflexivity.
        -- simpl in H. injection H as -> _. inversion Hb. congruence.
    + rewrite IH. split.
      * intros [before [after [H [Ho Hb]]]].
        exists (x :: before), after. subst rest.
        repeat split; [exact Ho | constructor; assumption].
      * intros [before [after [H [Ho Hb]]]].
        destruct before as [| y before].
        -- simpl in H. injection H as -> _. congruence.
        -- simpl in H. injection H as -> ->. inversion Hb.
           exists before, after. repeat split; assumption.
Qed.

Lemma first_order_none {Order} (test : Order -> bool) orders :
  DailyOrder.first_order Order test orders = None
  <-> Forall (fun o' => test o' = false) orders.
Proof.
  induction orders as [| x rest IH]; simpl.
  - split; [constructor | reflexivity].
  - destruct (test x) eqn:E.
    + split; [discriminate |]. intros H. inversion H. congruence.
    + rewrite IH. split.
      * intros H. constructor; assumption.
      * intros H. inversion H. assumption.
Qed.

(** X13.  Looked up by symbol, [KisDailyOrders.order] returns the first
    order of the list with that symbol, and [None] exactly when no order
    has it; [__getitem__] returns the same order and raises [KeyError]
    where [order] returns [None]. *)
Theorem X13_lookup_by_symbol :
  forall (KisOrder : Type) (order_eq : KisOrder -> KisOrder -> bool)
         (Order : Type) (symbol : Order -> string)
         (order_number : Order -> KisOrder)
         (orders : list Order) (s : string),
    let key := DailyOrder.KStr KisOrder s in
    let order := DailyOrder.order KisOrder order_eq Order symbol order_number
                   orders key in
    let item := DailyOrder.__getitem__ KisOrder order_eq Order symbol
                  order_number orders key in
    (forall o,
       order = Some o
       <-> exists before after,
             orders = (before ++ o :: after)%list
             /\ symbol o = s
             /\ Forall (fun o' => symbol o' <> s) before)
    /\ (order = None <-> Forall (fun o' => symbol o' <> s) orders)
    /\ item = match order with
              | Some o => Ret o
              | None => Raise DailyOrder.KeyError
              end.
Proof.
  intros KisOrder order_eq Order symbol order_number orders s key order item.
  assert (forall l,
            Forall (fun o' => String.eqb (symbol o') s = false) l
            <-> Forall (fun o' => symbol o' <> s) l) as Hneq.
  { intros l. split; intros H; induction H; constructor; try assumption;
      apply String.eqb_neq; assumption. }
  subst order item key. cbn [DailyOrder.order DailyOrder.__getitem__].
  split; [| split].
  - intros o. rewrite first_order_some.
    split; intros [before [after [H [Ho Hb]]]]; exists before, after;
      repeat split; try exact H; try (apply Hneq; exact Hb).
    + apply String.eqb_eq. exact Ho.
    + apply String.eqb_eq. exact Ho.
  - rewrite first_order_none. apply Hneq.
  - destruct (DailyOrder.first_order Order _ orders); reflexivity.
Qed.

(** X14.  Looked up by order number, [order] returns the first order
    whose number equals the key, and [None] exactly when none does;
    [__getitem__] returns the same order and raises [KeyError] where
    [order] returns [None].  A key that is neither an [int], a [str] nor
    a [KisOrder] is never found. *)
Theorem X14_lookup_by_order_number :
  forall (KisOrder : Type) (order_eq : KisOrder -> KisOrder -> bool)
         (Order : Type) (symbol : Order -> string)
         (order_number : Order -> KisOrder)
         (orders : list Order) (k : KisOrder),
    let key := DailyOrder.KOrder KisOrder k in
    let order := DailyOrder.order KisOrder order_eq Order symbol order_number
                   orders in
    let item := DailyOrder.__getitem__ KisOrder order_eq Order symbol
                  order_number orders in
    (forall o,
       order key = Some o
       <-> exists before after,
             orders = (before ++ o :: after)%list
             /\ order_eq (order_number o) k = true
             /\ Forall (fun o' => order_eq (order_number o') k = false)
                  before)
    /\ (order key = None
        <-> Forall (fun o' => order_eq (order_number o') k = false) orders)
    /\ item key = match order key with
                  | Some o => Ret o
                  | None => Raise DailyOrder.KeyError
                  end
    /\ order (DailyOrder.KOther KisOrder) = None
    /\ item (DailyOrder.KOther KisOrder) = Raise DailyOrder.KeyError.
Proof.
  intros KisOrder order_eq Order symbol order_number orders k key order item.
  subst order item key. cbn [DailyOrder.order DailyOrder.__getitem__].
  split; [| split; [| split; [| split]]].
  - intros o.
    apply (first_order_some (fun order => order_eq (order_number order) k)).
  - apply (first_order_none (fun order => order_eq (order_number order) k)).
  - destruct (DailyOrder.first_order Order _ orders); reflexivity.
  - reflexivity.
  - reflexivity.
Qed.

Lemma nth_error_Z_some {A} (l : list A) (j : Z) :
  0 <= j < list_len l -> exists x, nth_error l (Z.to_nat j) = Some x.
Proof.
  intros H. destruct (nth_error l (Z.to_nat j)) as [x |] eqn:E;
    [exists x; reflexivity |].
  apply nth_error_None in E. unfold list_len in H. lia.
Qed.

(** X15.  An [int] key indexes the list of orders as a Python list: an
    index from [0] to [len - 1] gives the order at that place, an index
    from [-len] to [-1] counts from the end, and any other index raises
    [IndexError], not [KeyError]; [order] does not take an index and
    returns [None] for it. *)
Theorem X15_lookup_by_index :
  forall (KisOrder : Type) (order_eq : KisOrder -> KisOrder -> bool)
         (Order : Type) (symbol : Order -> string)
         (order_number : Order -> KisOrder)
         (orders : list Order) (i : Z),
    let n := DailyOrder.__len__ Order orders in
    let item := DailyOrder.__getitem__ KisOrder order_eq Order symbol
                  order_number orders (DailyOrder.KInt KisOrder i) in
    (0 <= i < n ->
     exists o, nth_error orders (Z.to_nat i) = Some o /\ item = Ret o)
    /\ (- n <= i < 0 ->
        exists o, nth_error orders (Z.to_nat (n + i)) = Some o
                  /\ item = Ret o)
    /\ (i < - n \/ n <= i -> item = Raise DailyOrder.IndexError)
    /\ DailyOrder.order KisOrder order_eq Order symbol order_number orders
         (DailyOrder.KInt KisOrder i) = None.
Proof.
  intros KisOrder order_eq Order symbol order_number orders i n item.
  subst n item. unfold DailyOrder.__len__.
  cbn [DailyOrder.__getitem__ DailyOrder.order].
  unfold DailyOrder.list_getitem.
  split; [| split; [| split]].
  - intros H. replace (i <? 0) with false by lia.
    replace ((i <? 0) || (i >=? list_len orders)) with false by lia.
    destruct (nth_error_Z_some orders i H) as [o Ho].
    exists o. rewrite Ho. split; reflexivity.
  - intros H. replace (i <? 0) with true by lia.
    replace ((i + list_len orders <? 0)
             || (i + list_len orders >=? list_len orders)) with false by lia.
    destruct (nth_error_Z_some orders (list_len orders + i) ltac:(lia))
      as [o Ho].
    exists o. replace (i + list_len orders) with (list_len orders + i) by lia.
    rewrite Ho. split; reflexivity.
  - intros H. destruct (i <? 0) eqn:E.
    + replace ((i + list_len orders <? 0)
               || (i + list_len orders >=? list_len orders)) with true
        by lia.
      reflexivity.
    + replace ((i <? 0) || (i >=? list_len orders)) with true by lia.
      reflexivity.
  - reflexivity.
Qed.

Lemma X15_lookup_by_index_witness :
  (exists o, nth_error ["a"; "b"; "c"] (Z.to_nat (3 + -1)) = Some o
             /\ DailyOrder.__getitem__ unit (fun _ _ => true) string
                  (fun s => s) (fun _ => tt) ["a"; "b"; "c"]
                  (DailyOrder.KInt unit (-1)) = Ret o)
  /\ DailyOrder.__getitem__ unit (fun _ _ => true) string (fun s => s)
       (fun _ => tt) ["a"; "b"; "c"] (DailyOrder.KInt unit 3)
     = Raise DailyOrder.IndexError.
Proof.
  split.
  - apply (proj1 (proj2 (X15_lookup_by_index unit (fun _ _ => true) string
                           (fun s => s) (fun _ => tt) ["a"; "b"; "c"] (-1)))).
    vm_compute. split; [discriminate | reflexivity].
  - apply (proj1 (proj2 (proj2
             (X15_lookup_by_index unit (fun _ _ => true) string
                (fun s => s) (fun _ => tt) ["a"; "b"; "c"] 3)))).
    right. vm_compute. discriminate.
Defined.

(** ** The code tables *)

(** X16.  The code sent for an order type is read back as that type:
    ["buy"] goes out as ["02"] and ["sell"] as ["01"]; no type goes out
    as ["00"], and every code other than ["02"] is read as ["sell"]. *)
Theorem X16_order_type_code_round_trip :
  DailyOrder.type_of_code (DailyOrder.type_code (Some "buy")) = "buy"
  /\ DailyOrder.type_of_code (DailyOrder.type_code (Some "sell")) = "sell"
  /\ DailyOrder.type_code None = "00"
  /\ (forall x, x <> "02" -> DailyOrder.type_of_code x = "sell")
  /\ (forall t, DailyOrder.type_code (Some t) = "02" <-> t = "buy")
  /\ (forall x, DailyOrder.type_code (Some (DailyOrder.type_of_code x)) = x
                <-> x = "01" \/ x = "02").
Proof.
  repeat split; try reflexivity.
  - intros x Hx. unfold DailyOrder.type_of_code.
    apply String.eqb_neq in Hx. rewrite Hx. reflexivity.
  - unfold DailyOrder.type_code. destruct (String.eqb t "buy") eqn:E.
    + intros _. apply String.eqb_eq. exact E.
    + discriminate.
  - intros ->. reflexivity.
  - unfold DailyOrder.type_of_code.
    destruct (String.eqb x "02") eqn:E.
    + intros _. right. apply String.eqb_eq. exact E.
    + simpl. intros H. left. congruence.
  - intros [-> | ->]; reflexivity.
Qed.

(** X17.  [__pre_init__] finds its exchange code in the table or raises
    [KeyError].  Every Korean code gives the market [KRX]; a market, and
    with it its currency, is put into the cache unless the country is
    [HK], [US] or [VN]; the order condition is set for the codes ["61"]
    ([before]) and ["81"] ([extended]) only. *)
Theorem X17_exchange_code_table :
  forall (Currency : Type) (get_market_currency : string -> Currency)
         (code : string),
    (assoc code DailyOrder.DOMESTIC_EXCHANGE_CODE_MAP = None ->
     DailyOrder.__pre_init__ Currency get_market_currency code
     = Raise DailyOrder.KeyError)
    /\ forall f,
         DailyOrder.__pre_init__ Currency get_market_currency code = Ret f ->
         (DailyOrder.country Currency f = "KR" ->
          DailyOrder.cached_market Currency f = Some "KRX")
         /\ (DailyOrder.cached_market Currency f = None
             <-> DailyOrder.country Currency f = "HK"
                 \/ DailyOrder.country Currency f = "US"
                 \/ DailyOrder.country Currency f = "VN")
         /\ DailyOrder.cached_currency Currency f
            = option_map get_market_currency
                (DailyOrder.cached_market Currency f)
         /\ (forall c,
               DailyOrder.condition Currency f = Some c
               <-> (code = "61" /\ c = "before")
                   \/ (code = "81" /\ c = "extended")).
Proof.
  intros Currency get_market_currency code. split.
  - intros H. unfold DailyOrder.__pre_init__, DailyOrder.dict_getitem.
    rewrite H. reflexivity.
  - intros f. unfold DailyOrder.__pre_init__, DailyOrder.dict_getitem,
      DailyOrder.DOMESTIC_EXCHANGE_CODE_MAP.
    cbn [assoc].
    repeat match goal with
           | |- context [String.eqb ?a code] =>
               let E := fresh "E" in
               destruct (String.eqb a code) eqn:E;
               [apply String.eqb_eq in E; subst code; cbn; intros H;
                injection H as <-; cbn;
                (split; [| split; [| split]]);
                [ intros; try reflexivity; try discriminate
                | first [ split; [discriminate
                                 | intros [H | [H | H]]; discriminate H]
                        | split; [intros _; auto | reflexivity] ]
                | reflexivity
                | intros c; split;
                  [ intros H; try discriminate H; injection H as <-; auto
                  | intros [[H1 H2] | [H1 H2]];
                    try discriminate H1; subst c; reflexivity ] ]
               |]
           end.
    discriminate.
Qed.

Lemma X17_exchange_code_table_witness :
  DailyOrder.__pre_init__ string (fun mk => mk) "99"
  = Raise DailyOrder.KeyError
  /\ DailyOrder.cached_market string
       (DailyOrder.mkExchange string "KR" (Some "KRX") (Some "KRX")
          (Some "before"))
     = Some "KRX".
Proof.
  destruct (X17_exchange_code_table string (fun mk => mk) "99") as [H1 _].
  destruct (X17_exchange_code_table string (fun mk => mk) "61") as [_ H2].
  split; [apply H1; reflexivity |].
  destruct (H2 (DailyOrder.mkExchange string "KR" (Some "KRX") (Some "KRX")
                  (Some "before")) eq_refl) as [H _].
  apply H. reflexivity.
Defined.

(** ** The queries *)

Lemma recent_by_year now d :
  1 <= DailyOrder.month now <= 12 ->
  (DailyOrder.year now <= DailyOrder.year d -> DailyOrder.recent now d = true)
  /\ (DailyOrder.year d = DailyOrder.year now - 1 ->
      (DailyOrder.recent now d = true <-> 9 <= DailyOrder.month now))
  /\ (DailyOrder.year d <= DailyOrder.year now - 2 ->
      DailyOrder.recent now d = false).
Proof.
  intros Hm. unfold DailyOrder.recent. split; [| split].
  - intros H. apply Z.leb_le. nia.
  - intros H. rewrite Z.leb_le.
    replace (DailyOrder.year now - DailyOrder.year d) with 1 by lia. lia.
  - intros H. apply Z.leb_gt. nia.
Qed.

(** X18.  The test for a recent date looks at the years and at the
    current month only: a date of the current year or later is recent,
    a date of the year before is recent exactly from September on, and
    a date two or more years back never is; the month and the day of
    the date play no part. *)
Theorem X18_recent_by_year :
  forall now d : DailyOrder.date,
    1 <= DailyOrder.month now <= 12 ->
    (DailyOrder.year now <= DailyOrder.year d ->
     DailyOrder.recent now d = true)
    /\ (DailyOrder.year d = DailyOrder.year now - 1 ->
        (DailyOrder.recent now d = true <-> 9 <= DailyOrder.month now))
    /\ (DailyOrder.year d <= DailyOrder.year now - 2 ->
        DailyOrder.recent now d = false)
    /\ (forall m dd,
          DailyOrder.recent now
            (DailyOrder.mkDate (DailyOrder.year d) m dd)
          = DailyOrder.recent now d).
Proof.
  intros now d Hm. destruct (recent_by_year now d Hm) as [H1 [H2 H3]].
  split; [exact H1 |]. split; [exact H2 |]. split; [exact H3 |].
  intros m dd. reflexivity.
Qed.

Lemma X18_recent_by_year_witness :
  DailyOrder.recent (DailyOrder.mkDate 2024 6 15)
    (DailyOrder.mkDate 2024 1 1) = true
  /\ DailyOrder.recent (DailyOrder.mkDate 2024 6 15)
       (DailyOrder.mkDate 2022 12 31) = false.
Proof.
  split.
  - apply (proj1 (X18_recent_by_year (DailyOrder.mkDate 2024 6 15)
                    (DailyOrder.mkDate 2024 1 1) ltac:(simpl; lia))).
    simpl. lia.
  - apply (proj1 (proj2 (proj2
             (X18_recent_by_year (DailyOrder.mkDate 2024 6 15)
                (DailyOrder.mkDate 2022 12 31) ltac:(simpl; lia))))).
    simpl. lia.
Defined.

Lemma date_gt_asym a b :
  DailyOrder.date_gt a b = true -> DailyOrder.date_gt b a = false.
Proof.
  unfold DailyOrder.date_gt. intros H.
  apply orb_true_iff in H. apply orb_false_iff.
  destruct H as [H | H].
  - split; [lia |]. apply andb_false_iff. left. lia.
  - apply andb_true_iff in H. destruct H as [Hy H].
    split; [lia |]. apply orb_true_iff in H. destruct H as [H | H].
    + apply andb_false_iff. right. apply orb_false_iff.
      split; [lia |]. apply andb_false_iff. left. lia.
    + apply andb_true_iff in H. destruct H as [Hmo Hd].
      apply andb_false_iff. right. apply orb_false_iff.
      split; [lia |]. apply andb_false_iff. right. lia.
Qed.

(** X19.  Both queries put the earlier date first: the range they work
    on holds the two dates given, in an order in which the first is not
    after the second, and ordering an ordered range changes nothing. *)
Theorem X19_range_is_ordered :
  forall start end_ : DailyOrder.date,
    let range := DailyOrder.ordered start end_ in
    DailyOrder.date_gt (fst range) (snd range) = false
    /\ (range = (start, end_) \/ range = (end_, start))
    /\ DailyOrder.ordered (fst range) (snd range) = range.
Proof.
  intros start end_. unfold DailyOrder.ordered.
  destruct (DailyOrder.date_gt start end_) eqn:E; cbn [fst snd].
  - rewrite (date_gt_asym _ _ E). repeat split. right. reflexivity.
  - rewrite E. repeat split. left. reflexivity.
Qed.

Section QueryProperties.

Variable World : Type.
Variable today : World -> DailyOrder.date.
Variable Account : Type.
Variable KisAccountNumber : string -> res Account.
Variable KisPage : Type.
Variable first_page : KisPage.
Variable page_to : KisPage -> Z -> KisPage.
Variable is_first : KisPage -> bool.
Variable page_truthy : KisPage -> bool.
Variable Order : Type.
Variable fetch :
  DailyOrder.request Account KisPage ->
  DailyOrder.Q World (DailyOrder.response KisPage Order).
Variable minus_days : DailyOrder.date -> Z -> DailyOrder.date.

Local Abbreviation fetch_pages :=
  (DailyOrder.fetch_pages World Account KisPage Order fetch).
Local Abbreviation served :=
  (DailyOrder.served World Account KisPage Order fetch).
Local Abbreviation query :=
  (DailyOrder._domestic_daily_orders World today Account KisAccountNumber
     KisPage first_page page_to is_first page_truthy Order fetch).
Local Abbreviation query_all :=
  (DailyOrder.domestic_daily_orders World today Account KisAccountNumber
     KisPage first_page page_to is_first page_truthy Order fetch minus_days).
Local Abbreviation daily_request :=
  (DailyOrder.daily_request Account KisPage is_first).
Local Abbreviation extend := (DailyOrder.extend KisPage Order).
Local Abbreviation all_orders := (DailyOrder.all_orders KisPage Order).

Lemma extend_extend r l l' :
  extend (extend r l) l' = extend r (l ++ l')%list.
Proof. unfold DailyOrder.extend. simpl. rewrite app_assoc. reflexivity. Qed.

Lemma fetch_pages_served make w page rs w' :
  served make w page rs w' ->
  forall fuel first,
    (List.length rs <= fuel)%nat ->
    fetch_pages fuel make true page (Some first) w
    = (Ret (extend first (all_orders rs)), w').
Proof.
  intros H. induction H as [w page r w' Hf Hl | w page r w' rs w'' Hf Hl Hs IH];
    intros fuel first Hfuel.
  - destruct fuel as [| fuel]; [simpl in Hfuel; lia |].
    cbn [DailyOrder.fetch_pages]. unfold DailyOrder.qbind. rewrite Hf.
    cbn [negb orb]. rewrite Hl. unfold DailyOrder.qret.
    unfold DailyOrder.all_orders. simpl. rewrite app_nil_r. reflexivity.
  - destruct fuel as [| fuel]; [simpl in Hfuel; lia |].
    cbn [DailyOrder.fetch_pages]. unfold DailyOrder.qbind. rewrite Hf.
    cbn [negb orb]. rewrite Hl.
    rewrite IH by (simpl in Hfuel; lia).
    rewrite extend_extend. reflexivity.
Qed.

Lemma fetch_pages_served_first make w page rs w' :
  served make w page rs w' ->
  forall fuel,
    (List.length rs <= fuel)%nat ->
    exists r rest,
      rs = r :: rest
      /\ fetch_pages fuel make true page None w
         = (Ret (DailyOrder.mkResponse KisPage Order (all_orders rs)
                   (DailyOrder.is_last KisPage Order r)
                   (DailyOrder.next_page KisPage Order r)), w').
Proof.
  intros H fuel Hfuel.
  destruct H as [w page r w' Hf Hl | w page r w' rs w'' Hf Hl Hs].
  - exists r, []. split; [reflexivity |].
    destruct fuel as [| fuel]; [simpl in Hfuel; lia |].
    cbn [DailyOrder.fetch_pages]. unfold DailyOrder.qbind. rewrite Hf.
    destruct r as [o l n]. cbn in Hl. subst l.
    unfold DailyOrder.all_orders. cbn. rewrite app_nil_r. reflexivity.
  - exists r, rs. split; [reflexivity |].
    destruct fuel as [| fuel]; [simpl in Hfuel; lia |].
    cbn [DailyOrder.fetch_pages]. unfold DailyOrder.qbind. rewrite Hf.
    destruct r as [o l n]. cbn in Hl. subst l. cbn [negb orb].
    cbn [DailyOrder.is_last DailyOrder.next_page] in *.
    rewrite (fetch_pages_served make w' _ rs w'' Hs)
      by (simpl in Hfuel; lia).
    reflexivity.
Qed.

Lemma query_accepted fuel virtual a start end_ type page continuous w :
  DailyOrder.rejected (today w) (fst (DailyOrder.ordered start end_))
    (snd (DailyOrder.ordered start end_)) = false ->
  query fuel virtual (inr a) start end_ type page continuous w
  = fetch_pages fuel
      (daily_request (negb virtual)
         (DailyOrder.recent (today w) (fst (DailyOrder.ordered start end_)))
         (fst (DailyOrder.ordered start end_))
         (snd (DailyOrder.ordered start end_)) type a)
      continuous
      (page_to (match page with
                | Some p => if page_truthy p then p else first_page
                | None => first_page
                end) 100)
      None w.
Proof.
  intros H. unfold DailyOrder._domestic_daily_orders, DailyOrder.qbind.
  destruct (DailyOrder.ordered start end_) as [s e]. cbn [fst snd] in *.
  unfold DailyOrder.rejected in H. rewrite H. reflexivity.
Qed.

(** X20.  When the range is accepted and the server hands out, from the
    first page of 100 on, the pages [rs], of which the last one alone
    says it is the last, [_domestic_daily_orders] with
    [continuous=True] returns (given one unit of fuel per page) the
    first answer holding the orders of all the pages in page order, and
    leaves the world as the last request left it.  The requests carry
    the API code picked by the account kind and by the test on the
    start date. *)
Theorem X20_pages_are_concatenated :
  forall (fuel : nat) (virtual : bool) (a : Account)
         (start end_ : DailyOrder.date) (type : option string)
         (page : option KisPage) (w w' : World)
         (rs : list (DailyOrder.response KisPage Order)),
    let s := fst (DailyOrder.ordered start end_) in
    let e := snd (DailyOrder.ordered start end_) in
    DailyOrder.rejected (today w) s e = false ->
    served
      (daily_request (negb virtual) (DailyOrder.recent (today w) s) s e
         type a)
      w
      (page_to (match page with
                | Some p => if page_truthy p then p else first_page
                | None => first_page
                end) 100)
      rs w' ->
    (List.length rs <= fuel)%nat ->
    exists r rest,
      rs = r :: rest
      /\ query fuel virtual (inr a) start end_ type page true w
         = (Ret (DailyOrder.mkResponse KisPage Order (all_orders rs)
                   (DailyOrder.is_last KisPage Order r)
                   (DailyOrder.next_page KisPage Order r)), w').
Proof.
  intros fuel virtual a start end_ type page w w' rs s e Hacc Hs Hfuel.
  subst s e. rewrite (query_accepted _ _ _ _ _ _ _ _ _ Hacc).
  apply (fetch_pages_served_first _ _ _ _ _ Hs fuel Hfuel).
Qed.

(** X21.  With [continuous=False] an accepted query sends one request,
    for the first page of 100, and its outcome is the outcome of that
    request, whether the answer says it is the last page or not. *)
Theorem X21_one_page_when_not_continuous :
  forall (fuel : nat) (virtual : bool) (a : Account)
         (start end_ : DailyOrder.date) (type : option string)
         (page : option KisPage) (w : World),
    let s := fst (DailyOrder.ordered start end_) in
    let e := snd (DailyOrder.ordered start end_) in
    DailyOrder.rejected (today w) s e = false ->
    query (S fuel) virtual (inr a) start end_ type page false w
    = fetch
        (daily_request (negb virtual) (DailyOrder.recent (today w) s) s e
           type a
           (page_to (match page with
                     | Some p => if page_truthy p then p else first_page
                     | None => first_page
                     end) 100))
        w.
Proof.
  intros fuel virtual a start end_ type page w s e Hacc.
  subst s e. rewrite (query_accepted _ _ _ _ _ _ _ _ _ Hacc).
  cbn [DailyOrder.fetch_pages]. unfold DailyOrder.qbind.
  destruct (fetch _ w) as [[r | err |] w']; reflexivity.
Qed.

(** X22.  A query whose account text is refused by [KisAccountNumber],
    or whose ordered range fails the range test, raises before any
    request is sent: the outcome does not depend on the server and the
    world is left as it was. *)
Theorem X22_refused_before_any_request :
  forall (fuel : nat) (virtual : bool) (start end_ : DailyOrder.date)
         (type : option string) (page : option KisPage) (continuous : bool)
         (w : World),
    (forall text err,
       KisAccountNumber text = Raise err ->
       query fuel virtual (inl text) start end_ type page continuous w
       = (Raise err, w))
    /\ (forall a,
          DailyOrder.rejected (today w) (fst (DailyOrder.ordered start end_))
            (snd (DailyOrder.ordered start end_)) = true ->
          query fuel virtual (inr a) start end_ type page continuous w
          = (Raise (ValueError (DailyOrder.range_message)), w)).
Proof.
  intros fuel virtual start end_ type page continuous w. split.
  - intros text err H.
    unfold DailyOrder._domestic_daily_orders, DailyOrder.qbind.
    rewrite H. reflexivity.
  - intros a H.
    unfold DailyOrder._domestic_daily_orders, DailyOrder.qbind.
    destruct (DailyOrder.ordered start end_) as [s e]. cbn [fst snd] in *.
    unfold DailyOrder.rejected in H. rewrite H. reflexivity.
Qed.

(** X23.  [domestic_daily_orders] sends one query, for the ordered
    range, when both dates are of the current year or later.  When the
    start is two or more years back it sends two: first from the first
    day of the month that lies ninety days back up to the end, then
    from the start up to the day before; the orders of the second are
    put after those of the first, and if the first raises the second is
    not sent. *)
Theorem X23_split_of_the_range :
  forall (fuel : nat) (virtual : bool) (account : string + Account)
         (start end_ : DailyOrder.date) (type : option string) (w : World),
    let s := fst (DailyOrder.ordered start end_) in
    let e := snd (DailyOrder.ordered start end_) in
    let now := today w in
    let back := minus_days now 90 in
    let split_start :=
      DailyOrder.mkDate (DailyOrder.year back) (DailyOrder.month back) 1 in
    1 <= DailyOrder.month now <= 12 ->
    (DailyOrder.year now <= DailyOrder.year s ->
     DailyOrder.year now <= DailyOrder.year e ->
     query_all fuel virtual account start end_ type w
     = query fuel virtual account s e type None true w)
    /\ (DailyOrder.year s <= DailyOrder.year now - 2 ->
        (forall r1 w1 r2 w2,
           query fuel virtual account split_start e type None true w
           = (Ret r1, w1) ->
           query fuel virtual account s (minus_days split_start 1) type None
             true w1 = (Ret r2, w2) ->
           query_all fuel virtual account start end_ type w
           = (Ret (extend r1 (DailyOrder.orders KisPage Order r2)), w2))
        /\ (forall err w1,
              query fuel virtual account split_start e type None true w
              = (Raise err, w1) ->
              query_all fuel virtual account start end_ type w
              = (Raise err, w1))).
Proof.
  intros fuel virtual account start end_ type w s e now back split_start Hm.
  subst s e now back split_start.
  unfold DailyOrder.domestic_daily_orders.
  destruct (DailyOrder.ordered start end_) as [s e]. cbn [fst snd].
  destruct (recent_by_year (today w) s Hm) as [Hs1 [_ Hs3]].
  destruct (recent_by_year (today w) e Hm) as [He1 _].
  split.
  - intros Hs He. rewrite (Hs1 Hs), (He1 He). reflexivity.
  - intros Hs. rewrite (Hs3 Hs). cbn [andb]. split.
    + intros r1 w1 r2 w2 H1 H2. unfold DailyOrder.qbind.
      rewrite H1, H2. reflexivity.
    + intros err w1 H1. unfold DailyOrder.qbind. rewrite H1. reflexivity.
Qed.

End QueryProperties.

Lemma X20_pages_are_concatenated_witness :
  exists r rest,
    [DailyOrder.mkResponse nat string ["o1"; "o2"] false 1%nat;
     DailyOrder.mkResponse nat string ["o3"] true 1%nat] = r :: rest
    /\ DailyOrderInputs.query 2 false (inr "acc")
         (DailyOrder.mkDate 2024 3 1) (DailyOrder.mkDate 2024 1 1) None None
         true 0%nat
       = (Ret (DailyOrder.mkResponse nat string
                 (DailyOrder.all_orders nat string
                    [DailyOrder.mkResponse nat string ["o1"; "o2"] false
                       1%nat;
                     DailyOrder.mkResponse nat string ["o3"] true 1%nat])
                 (DailyOrder.is_last nat string r)
                 (DailyOrder.next_page nat string r)), 2%nat).
Proof.
  apply (X20_pages_are_concatenated DailyOrderInputs.World
           DailyOrderInputs.today string DailyOrderInputs.KisAccountNumber
           nat DailyOrderInputs.first_page DailyOrderInputs.page_to
           DailyOrderInputs.is_first DailyOrderInputs.page_truthy string
           DailyOrderInputs.fetch 2 false "acc"
           (DailyOrder.mkDate 2024 3 1) (DailyOrder.mkDate 2024 1 1) None
           None 0%nat 2%nat).
  - reflexivity.
  - apply (DailyOrder.served_more _ _ _ _ _ _ 0%nat _ _ 1%nat);
      [reflexivity | reflexivity |].
    apply DailyOrder.served_last; reflexivity.
  - simpl. lia.
Defined.

Lemma X21_one_page_when_not_continuous_witness :
  DailyOrderInputs.query 1 false (inr "acc") (DailyOrder.mkDate 2024 1 1)
    (DailyOrder.mkDate 2024 3 1) None None false 0%nat
  = (Ret (DailyOrder.mkResponse nat string ["o1"; "o2"] false 1%nat), 1%nat).
Proof.
  apply (X21_one_page_when_not_continuous DailyOrderInputs.World
           DailyOrderInputs.today string DailyOrderInputs.KisAccountNumber
           nat DailyOrderInputs.first_page DailyOrderInputs.page_to
           DailyOrderInputs.is_first DailyOrderInputs.page_truthy string
           DailyOrderInputs.fetch 0 false "acc"
           (DailyOrder.mkDate 2024 1 1) (DailyOrder.mkDate 2024 3 1) None
           None 0%nat).
  reflexivity.
Defined.

Lemma X22_refused_before_any_request_witness :
  DailyOrderInputs.query 5 false (inl EmptyString)
    (DailyOrder.mkDate 2024 1 1) (DailyOrder.mkDate 2024 3 1) None None true
    0%nat
  = (Raise (ValueError "account"), 0%nat)
  /\ DailyOrderInputs.query 5 false (inr "acc")
       (DailyOrder.mkDate 2024 11 1) (DailyOrder.mkDate 2024 1 1) None None
       true 0%nat
     = (Raise (ValueError DailyOrder.range_message), 0%nat).
Proof.
  destruct (X22_refused_before_any_request DailyOrderInputs.World
              DailyOrderInputs.today string DailyOrderInputs.KisAccountNumber
              nat DailyOrderInputs.first_page DailyOrderInputs.page_to
              DailyOrderInputs.is_first DailyOrderInputs.page_truthy string
              DailyOrderInputs.fetch 5 false
              (DailyOrder.mkDate 2024 1 1) (DailyOrder.mkDate 2024 3 1) None
              None true 0%nat) as [H1 _].
  destruct (X22_refused_before_any_request DailyOrderInputs.World
              DailyOrderInputs.today string DailyOrderInputs.KisAccountNumber
              nat DailyOrderInputs.first_page DailyOrderInputs.page_to
              DailyOrderInputs.is_first DailyOrderInputs.page_truthy string
              DailyOrderInputs.fetch 5 false
              (DailyOrder.mkDate 2024 11 1) (DailyOrder.mkDate 2024 1 1) None
              None true 0%nat) as [_ H2].
  split.
  - apply H1. reflexivity.
  - apply H2. reflexivity.
Defined.

Lemma X23_split_of_the_range_witness :
  DailyOrderInputs.query_all 5 false (inr "acc")
    (DailyOrder.mkDate 2024 3 1) (DailyOrder.mkDate 2024 1 1) None 0%nat
  = DailyOrderInputs.query 5 false (inr "acc")
      (DailyOrder.mkDate 2024 1 1) (DailyOrder.mkDate 2024 3 1) None None
      true 0%nat
  /\ DailyOrderInputs.query_all 5 false (inr "acc")
       (DailyOrder.mkDate 2021 1 1) (DailyOrder.mkDate 2021 3 1) None 0%nat
     = (Ret (DailyOrder.extend nat string
               (DailyOrder.mkResponse nat string ["o1"; "o2"; "o3"] false
                  1%nat)
               ["o1"; "o2"; "o3"]), 4%nat).
Proof.
  split.
  - apply (proj1 (X23_split_of_the_range DailyOrderInputs.World
                    DailyOrderInputs.today string
                    DailyOrderInputs.KisAccountNumber nat
                    DailyOrderInputs.first_page DailyOrderInputs.page_to
                    DailyOrderInputs.is_first DailyOrderInputs.page_truthy
                    string DailyOrderInputs.fetch DailyOrderInputs.minus_days
                    5 false (inr "acc") (DailyOrder.mkDate 2024 3 1)
                    (DailyOrder.mkDate 2024 1 1) None 0%nat
                    ltac:(simpl; lia)));
      simpl; lia.
  - apply (proj1 (proj2 (X23_split_of_the_range DailyOrderInputs.World
                    DailyOrderInputs.today string
                    DailyOrderInputs.KisAccountNumber nat
                    DailyOrderInputs.first_page DailyOrderInputs.page_to
                    DailyOrderInputs.is_first DailyOrderInputs.page_truthy
                    string DailyOrderInputs.fetch DailyOrderInputs.minus_days
                    5 false (inr "acc") (DailyOrder.mkDate 2021 1 1)
                    (DailyOrder.mkDate 2021 3 1) None 0%nat
                    ltac:(simpl; lia)) ltac:(simpl; lia))
           _ 2%nat (DailyOrder.mkResponse nat string ["o1"; "o2"; "o3"]
                      false 1%nat));
      reflexivity.
Defined.
